(** * dj_serializers_to_ts: serializer classes to TypeScript interfaces

    A shallow embedding of [dj_serializers_to_ts.py].  Python [str] values
    are byte strings (UTF-8), on which [str.replace], comparison and
    concatenation behave as they do on code points. *)

From Stdlib Require Import String Ascii.
From stdpp Require Import gmap strings list fin_maps sorting.

(** ** Python string operations used by the script *)

Module Py.

(** Core of [str.replace(old, new)] for a non-empty [old]:
    scan left to right, and at a match emit [new] and skip the rest of the
    matched occurrence ([skip] counts the characters still to drop). *)
Fixpoint replace_from (old new : string) (skip : nat) (s : string) : string :=
  match s with
  | EmptyString => EmptyString
  | String c s' =>
      match skip with
      | S k => replace_from old new k s'
      | O =>
          if String.prefix old s
          then new +:+ replace_from old new (String.length old - 1) s'
          else String c (replace_from old new 0 s')
      end
  end.

(** [s.replace("", new)] puts [new] before every character and at the end. *)
Fixpoint intersperse (new s : string) : string :=
  match s with
  | EmptyString => new
  | String c s' => new +:+ String c (intersperse new s')
  end.

(** [s.replace(old, new)] *)
Definition replace (old new s : string) : string :=
  match old with
  | EmptyString => intersperse new s
  | _ => replace_from old new 0 s
  end.

(** The line feed the script writes as [\n]. *)
Definition nl : string := String "010" EmptyString.

(** [s.startswith(p)] *)
Definition startswith (p s : string) : bool := String.prefix p s.

(** [sep.join(l)] *)
Definition join (sep : string) (l : list string) : string := String.concat sep l.

(** [s[n:]] *)
Fixpoint drop (n : nat) (s : string) : string :=
  match n, s with
  | O, _ => s
  | S _, EmptyString => EmptyString
  | S k, String _ s' => drop k s'
  end.

(** [c in s] for a character [c] *)
Fixpoint has_char (c : ascii) (s : string) : bool :=
  match s with
  | EmptyString => false
  | String c' s' => Ascii.eqb c c' || has_char c s'
  end.

(** [old in s] *)
Fixpoint occurs (old s : string) : bool :=
  String.prefix old s ||
  match s with
  | EmptyString => false
  | String _ s' => occurs old s'
  end.

(** [s.rpartition(c)[2]]: what follows the last [c], all of [s] without one. *)
Fixpoint after_last (c : ascii) (s : string) : string :=
  match s with
  | EmptyString => EmptyString
  | String x s' =>
      if has_char c s' then after_last c s'
      else if Ascii.eqb x c then s' else s
  end.

(** [sorted(xs)] on strings: ascending in the code-point order. *)
Definition sorted (xs : list string) : list string := merge_sort String.le xs.

End Py.

(** ** Paths

    A path is the list of its components, as [pathlib] and [os.path] split
    it.  Components are names of directory entries: never empty, [.] or
    [..], and free of the separator. *)

Abbreviation path := (list string).

Module OsPath.

Definition sep : string := "/".
Definition pardir : string := "..".
Definition curdir : string := ".".

(** [rel_list] of [posixpath.relpath]: one [pardir] for every component of
    [start] below the common prefix, then the rest of [p]. *)
Fixpoint rel_list (p start : path) : path :=
  match p, start with
  | x :: p', y :: start' =>
      if decide (x = y) then rel_list p' start'
      else replicate (length start) pardir ++ p
  | _, _ => replicate (length start) pardir ++ p
  end.

(** [os.path.relpath(p, start)] *)
Definition relpath (p start : path) : string :=
  match rel_list p start with
  | [] => curdir
  | rel => Py.join sep rel
  end.

(** Splits a name at its last dot: [name.rpartition(".")] when it has one. *)
Fixpoint rpartition_dot (name : string) : option (string * string) :=
  match name with
  | EmptyString => None
  | String c name' =>
      match rpartition_dot name' with
      | Some (stem, ext) => Some (String c stem, ext)
      | None => if Ascii.eqb c "." then Some (EmptyString, name') else None
      end
  end.

(** Last component of [PurePath.with_suffix("")]: the suffix starts at the
    last dot, unless that dot is the first or the last character. *)
Definition with_suffix_empty (name : string) : string :=
  match rpartition_dot name with
  | Some (stem, ext) =>
      if (0 <? String.length stem) && (0 <? String.length ext) then stem else name
  | None => name
  end.

End OsPath.

(** ** Python dictionaries that are iterated

    [fields] and [all_interfaces] are iterated with [.items()], so they keep
    insertion order: assigning to a key that is present replaces its value in
    place, assigning to a new key appends. *)

Module Dict.

Fixpoint set {V} (d : list (string * V)) (k : string) (v : V) : list (string * V) :=
  match d with
  | [] => [(k, v)]
  | (k', v') :: d' =>
      if decide (k' = k) then (k', v) :: d' else (k', v') :: set d' k v
  end.

Fixpoint get {V} (d : list (string * V)) (k : string) : option V :=
  match d with
  | [] => None
  | (k', v') :: d' => if decide (k' = k) then Some v' else get d' k
  end.

Definition keys {V} (d : list (string * V)) : list string := d.*1.
Definition values {V} (d : list (string * V)) : list V := d.*2.

End Dict.

(** ** Configuration *)

Definition TEMP_INDEX_FILENAME : string := "tempindex.ts".

(** ** The field map *)

Definition FIELD_TYPE_MAP : gmap string string :=
  list_to_map [
    ("CharField", "string"); ("TextField", "string"); ("SlugField", "string");
    ("EmailField", "string"); ("URLField", "string"); ("DateField", "string");
    ("DateTimeField", "string"); ("TimeField", "string"); ("BooleanField", "boolean");
    ("NullBooleanField", "boolean"); ("IntegerField", "number"); ("SmallIntegerField", "number");
    ("BigIntegerField", "number"); ("PositiveIntegerField", "number");
    ("PositiveSmallIntegerField", "number");
    ("FloatField", "number"); ("DecimalField", "number"); ("JSONField", "any");
    ("DictField", "Record<string, any>"); ("ListField", "any[]");
    ("SerializerMethodField", "any");
    ("PrimaryKeyRelatedField", "number"); ("ManyRelatedField", "number[]");
    ("ImageField", "string"); ("FileField", "string"); ("ChoiceField", "string")
  ].

(** [FIELD_TYPE_MAP.values()] *)
Definition FIELD_TYPE_MAP_values : list string := (map_to_list FIELD_TYPE_MAP).*2.

(** ** Objects of the host framework seen by the script *)

(** A field instance, by what the script asks of it: its class, whether that
    class derives from [ListSerializer] (itself a [BaseSerializer]) or from
    [BaseSerializer], and the class of its [child] attribute when it has
    one. *)
Inductive field_obj :=
  | ListSerializerObj (class_name : string) (child_class_name : option string)
  | SerializerObj (class_name : string)
  | FieldObj (class_name : string).

#[global] Instance field_obj_eq_dec : EqDecision field_obj.
Proof. solve_decision. Defined.

(** [field.__class__.__name__] *)
Definition field_class_name (field : field_obj) : string :=
  match field with
  | ListSerializerObj n _ | SerializerObj n | FieldObj n => n
  end.

(** [isinstance(field, serializers.ListSerializer)] *)
Definition is_ListSerializer (field : field_obj) : bool :=
  match field with ListSerializerObj _ _ => true | _ => false end.

(** [isinstance(field, serializers.BaseSerializer)] *)
Definition is_BaseSerializer (field : field_obj) : bool :=
  match field with ListSerializerObj _ _ | SerializerObj _ => true | FieldObj _ => false end.

(** [field.child.__class__.__name__], when [hasattr(field, "child")]; only
    consulted on a list serializer. *)
Definition child_class_name (field : field_obj) : option string :=
  match field with ListSerializerObj _ c => c | _ => None end.

(** A class object. [cls_get_fields] is the result of
    [cls().get_fields().items()], [None] when instantiating the class or
    querying its fields raises. *)
Record class_obj := {
  cls_name : string;
  cls_module : string;
  cls_is_serializer : bool;
  cls_get_fields : option (list (string * field_obj))
}.

(** A module attribute is a class or something else ([inspect.isclass]). *)
Inductive py_obj :=
  | ClassObj (cls : class_obj)
  | OtherObj.

(** A file yielded by [base.rglob("*.py")]: the directory part of its path
    relative to [base], its name, and what [inspect.getmembers] lists for the
    module once the file is executed ([None] when executing it raises). *)
Record source_file := {
  sf_parent : path;
  sf_name : string;
  sf_members : option (list (string * py_obj))
}.

(** ** Field Mapper *)

(** The name derivation the script applies to class names in three places:
    [name.replace("Serializer", "")]. *)
Definition derive_name (name : string) : string := Py.replace "Serializer" "" name.

(** Body of the loop of [extract_serializer_fields]: the type of one field. *)
Definition field_ts_type (field : field_obj) : string :=
  match (if is_ListSerializer field then child_class_name field else None) with
  | Some child =>
      let nested_name := derive_name child in
      nested_name +:+ "[]"
  | None =>
      if is_BaseSerializer field then
        let nested_name := derive_name (field_class_name field) in
        nested_name
      else
        default "any" (FIELD_TYPE_MAP !! field_class_name field)
  end.

Definition extract_serializer_fields (cls : class_obj) : option (list (string * string)) :=
  match cls_get_fields cls with
  | None => None
  | Some items =>
      Some (foldl (λ fields '(field_name, field),
                     Dict.set fields field_name (field_ts_type field)) [] items)
  end.

(** ** Loader *)

(** The condition of the comprehension of [find_serializer_classes]. *)
Definition qualifies (cls : class_obj) (module_path : string) : bool :=
  cls_is_serializer cls && bool_decide (cls_module cls = module_path).

Definition find_serializer_classes (file : source_file) (module_path : string)
  : option (list (string * class_obj)) :=
  match sf_members file with
  | None => None
  | Some members =>
      Some (omap (λ '(name, obj),
                    match obj with
                    | ClassObj cls =>
                        if qualifies cls module_path
                        then Some (derive_name name, cls)
                        else None
                    | OtherObj => None
                    end) members)
  end.

(** ** Writer *)

(** The tree of files the script writes to: the text each path holds.
    What loading a module may leave next to the sources, such as byte-code
    caches, is not part of it. *)
Abbreviation file_system := (gmap path string).

(** [os.path.relpath(p, start).replace(".ts", "").replace(os.sep, "/")] *)
Definition rel_module (p start : path) : string :=
  Py.replace OsPath.sep "/" (Py.replace ".ts" "" (OsPath.relpath p start)).

Definition import_line (dep rel_path : string) : string :=
  "import type { " +:+ dep +:+ " } from './" +:+ rel_path +:+ "';" +:+ Py.nl.

Definition field_line (item : string * string) : string :=
  "  " +:+ item.1 +:+ "?: " +:+ item.2 +:+ ";" +:+ Py.nl.

Definition export_line (rel_import : string) : string :=
  "export * from './" +:+ rel_import +:+ "';".

Definition INDEX_HEADER : string :=
  "// 🔄 Auto-generated. Do not edit manually." +:+ Py.nl +:+ Py.nl.

Section Run.

(** [Path(FRONTEND_DIR).resolve()] *)
Variable out_base : path.

(** The arguments of the [f.write] calls of the import loop of
    [write_ts_interface], in order. *)
Definition import_writes (interface_locations : gmap string path)
    (name : string) (deps : gset string) (current_dir : path) : list string :=
  omap (λ dep,
          if bool_decide (dep = name) || bool_decide (interface_locations !! dep = None)
          then None
          else
            dep_path ← interface_locations !! dep;
            Some (import_line dep (rel_module dep_path current_dir)))
       (Py.sorted (elements deps)).

(** All [f.write] arguments of [write_ts_interface], in order. *)
Definition interface_writes (interface_locations : gmap string path)
    (name : string) (fields : list (string * string)) (deps : gset string)
    (current_dir : path) : list string :=
  import_writes interface_locations name deps current_dir
  ++ (if bool_decide (deps = ∅) then [] else [Py.nl])
  ++ ["export interface " +:+ name +:+ " {" +:+ Py.nl]
  ++ (field_line <$> fields)
  ++ ["}" +:+ Py.nl].

(** [write_ts_interface]: the file at [out_path] is left holding what the
    [f.write] calls wrote.  [out_path.parent.mkdir(parents=True,
    exist_ok=True)] and [open(out_path, "w")] are taken to succeed: the tree
    holds files only, and a path that is a file and a directory at once, on
    which they raise, has no representation in it. *)
Definition write_ts_interface (interface_locations : gmap string path)
    (name : string) (fields : list (string * string)) (out_path : path)
    (deps : gset string) (current_dir : path) (fs : file_system) : file_system :=
  <[out_path := String.concat "" (interface_writes interface_locations name fields deps current_dir)]> fs.

(** ** Main *)

(** State of the discovery loop: the module-level [interface_locations] and
    the local [all_interfaces]. *)
Record discovery := {
  interface_locations : gmap string path;
  all_interfaces : list (string * (list (string * string) * path))
}.

(** Body of [for interface_name, cls in find_serializer_classes(...)]. *)
Definition register_class (relative_parent : path) (st : discovery)
    (found : string * class_obj) : option discovery :=
  let '(interface_name, cls) := found in
  fields ← extract_serializer_fields cls;
  let out_path := out_base ++ relative_parent ++ [interface_name +:+ ".ts"] in
  Some {| interface_locations := <[interface_name := out_path]> (interface_locations st);
          all_interfaces := Dict.set (all_interfaces st) interface_name (fields, out_path) |}.

(** A loop whose body may raise: the first failure aborts it. *)
Fixpoint for_each {S A} (body : S → A → option S) (st : S) (xs : list A) : option S :=
  match xs with
  | [] => Some st
  | x :: xs' => st' ← body st x; for_each body st' xs'
  end.

Definition module_path_of (file : source_file) : string :=
  Py.join "." ("api.serializers" :: sf_parent file ++ [OsPath.with_suffix_empty (sf_name file)]).

(** Body of [for file_path in base.rglob("*.py")]. *)
Definition scan_file (st : discovery) (file : source_file) : option discovery :=
  if Py.startswith "__" (sf_name file) then Some st
  else
    found ← find_serializer_classes file (module_path_of file);
    for_each (register_class (sf_parent file)) st found.

(** The comprehension that builds [deps] in [main]. *)
Definition deps_of (fields : list (string * string)) : gset string :=
  list_to_set
    (Py.replace "[]" "" <$>
       filter (λ t, (t ∉ FIELD_TYPE_MAP_values) ∧ (t ≠ "any")) (Dict.values fields)).

(** State of the writing loop: the output tree and [index_lines]. *)
Record writing := {
  fs : file_system;
  index_lines : list string
}.

(** Body of [for interface_name, (fields, out_path) in all_interfaces.items()];
    [out_path.parent] is [out_path] without its last component. *)
Definition emit_interface (locs : gmap string path) (w : writing)
    (item : string * (list (string * string) * path)) : writing :=
  let '(interface_name, (fields, out_path)) := item in
  let deps := deps_of fields in
  let fs' := write_ts_interface locs interface_name fields out_path deps
               (removelast out_path) (fs w) in
  let rel_import := rel_module out_path out_base in
  {| fs := fs'; index_lines := index_lines w ++ [export_line rel_import] |}.

Definition index_text (index_lines : list string) : string :=
  INDEX_HEADER +:+
  (Py.join Py.nl (Py.sorted (elements (list_to_set index_lines : gset string))) +:+ Py.nl).

(** First loop of [main]. *)
Definition discover (files : list source_file) (locs0 : gmap string path)
  : option discovery :=
  for_each scan_file {| interface_locations := locs0; all_interfaces := [] |} files.

(** Second loop of [main]. *)
Definition write_all (st : discovery) (fs0 : file_system) : writing :=
  foldl (emit_interface (interface_locations st))
    {| fs := fs0; index_lines := [] |} (all_interfaces st).

(** [main()], from the files [rglob] yields, the module-level
    [interface_locations] and the output tree it finds, to what it leaves;
    [None] when a file fails to load or a class fails to give its fields.
    The second loop and the index are total: faults of the file system
    while writing are not part of the model. *)
Definition main (files : list source_file) (locs0 : gmap string path)
    (fs0 : file_system) : option (gmap string path * file_system) :=
  match discover files locs0 with
  | None => None
  | Some st =>
      let w := write_all st fs0 in
      Some (interface_locations st,
            <[out_base ++ [TEMP_INDEX_FILENAME] := index_text (index_lines w)]> (fs w))
  end.

End Run.

(** ** Vocabulary of the properties *)

(** [str.removesuffix]: the reading of the derived name as the class name
    without its suffix. *)
Definition removesuffix (suffix s : string) : string :=
  let n := String.length s - String.length suffix in
  if decide (Py.drop n s = suffix) then String.substring 0 n s else s.

(** Where an interface of a given name goes. *)
Definition out_path_of (out_base parent : path) (interface_name : string) : path :=
  out_base ++ parent ++ [interface_name +:+ ".ts"].

(** [file] is scanned and yields an interface [n] with mapping [fields],
    from a qualifying class bound to some attribute of its module. *)
Definition discovers_in (file : source_file) (parent : path) (n : string)
    (fields : list (string * string)) : Prop :=
  Py.startswith "__" (sf_name file) = false ∧
  parent = sf_parent file ∧
  ∃ members attr cls,
    sf_members file = Some members ∧
    (attr, ClassObj cls) ∈ members ∧
    qualifies cls (module_path_of file) = true ∧
    n = derive_name attr ∧
    extract_serializer_fields cls = Some fields.

Definition discovers (files : list source_file) (parent : path) (n : string)
    (fields : list (string * string)) : Prop :=
  ∃ file, file ∈ files ∧ discovers_in file parent n fields.

(** The locations [all_interfaces] records, as a map. *)
Definition loc_map (all : list (string * (list (string * string) * path)))
  : gmap string path :=
  list_to_map ((λ item, (item.1, item.2.2)) <$> all).

(** A sequence of whole-file writes applied to a tree. *)
Definition apply_writes (ws : list (path * string)) (fs0 : gmap path string)
  : gmap path string :=
  foldl (λ m w, <[w.1 := w.2]> m) fs0 ws.

(** Invariant of the first loop of [main], over the interfaces [D]
    discovered so far: names are unique, every entry comes from a discovery
    and sits where its name sends it, and no discovered name is missing. *)
Definition discovery_inv (out_base : path)
    (D : path → string → list (string * string) → Prop) (st : discovery) : Prop :=
  NoDup (Dict.keys (all_interfaces st)) ∧
  (∀ n fields p, Dict.get (all_interfaces st) n = Some (fields, p) →
     ∃ parent, D parent n fields ∧ p = out_path_of out_base parent n) ∧
  (∀ parent n fields, D parent n fields → n ∈ Dict.keys (all_interfaces st)).

(** [file] cannot abort the run: it is skipped, or it loads and each of its
    qualifying classes gives its fields. *)
Definition loads_cleanly (file : source_file) : Prop :=
  Py.startswith "__" (sf_name file) = false →
  ∃ members, sf_members file = Some members ∧
    ∀ attr cls, (attr, ClassObj cls) ∈ members →
      qualifies cls (module_path_of file) = true → is_Some (cls_get_fields cls).

Abbreviation interface_entry := (string * (list (string * string) * path))%type.

(** The text [write_ts_interface] gives the file of an entry of
    [all_interfaces]. *)
Definition interface_text (locs : gmap string path) (item : interface_entry) : string :=
  String.concat ""
    (interface_writes locs item.1 item.2.1 (deps_of item.2.1) (removelast item.2.2)).

Definition interface_file (locs : gmap string path) (item : interface_entry)
  : path * string :=
  (item.2.2, interface_text locs item).

(** The re-export line of an entry. *)
Definition index_line (out_base : path) (item : interface_entry) : string :=
  export_line (rel_module item.2.2 out_base).

Definition index_path (out_base : path) : path := out_base ++ [TEMP_INDEX_FILENAME].

(** The files the second half of [main] writes, in order. *)
Definition run_writes (out_base : path) (st : discovery) : list (path * string) :=
  (interface_file (interface_locations st) <$> all_interfaces st)
  ++ [(index_path out_base, index_text (index_line out_base <$> all_interfaces st))].

(** A name that can be a path component next to an extension: no dot, no
    separator.  Python identifiers are such names. *)
Definition path_safe (s : string) : Prop :=
  Py.has_char "." s = false ∧ Py.has_char "/" s = false.

(** Every class of every module is bound to such a name. *)
Definition names_path_safe (files : list source_file) : Prop :=
  ∀ file members attr cls,
    file ∈ files → sf_members file = Some members →
    (attr, ClassObj cls) ∈ members → path_safe attr.

(** The dependencies [write_ts_interface] imports, in the order of the
    import lines: all but the interface itself and those without a known
    location. *)
Definition imported_deps (locs : gmap string path) (name : string)
    (deps : gset string) : list string :=
  filter (λ dep, dep ≠ name ∧ is_Some (locs !! dep)) (Py.sorted (elements deps)).


(** ** A serializer named like a primitive type *)

Definition stringSerializer : class_obj :=
  {| cls_name := "stringSerializer"; cls_module := "api.serializers.comments";
     cls_is_serializer := true;
     cls_get_fields := Some [("value", FieldObj "CharField")] |}.

Definition CommentSerializer : class_obj :=
  {| cls_name := "CommentSerializer"; cls_module := "api.serializers.comments";
     cls_is_serializer := true;
     cls_get_fields :=
       Some [("owner", SerializerObj "stringSerializer");
             ("tags", ListSerializerObj "ListSerializer" (Some "stringSerializer"))] |}.

Definition OwnerSerializer : class_obj :=
  {| cls_name := "OwnerSerializer"; cls_module := "api.serializers.comments";
     cls_is_serializer := true;
     cls_get_fields := Some [("owner", SerializerObj "stringSerializer")] |}.

Definition comments_py : source_file :=
  {| sf_parent := []; sf_name := "comments.py";
     sf_members := Some [("CommentSerializer", ClassObj CommentSerializer);
                         ("OwnerSerializer", ClassObj OwnerSerializer);
                         ("stringSerializer", ClassObj stringSerializer)] |}.

Definition Comment_ts : string :=
  "import type { string } from './string';" +:+ Py.nl +:+
  Py.nl +:+
  "export interface Comment {" +:+ Py.nl +:+
  "  owner?: string;" +:+ Py.nl +:+
  "  tags?: string[];" +:+ Py.nl +:+
  "}" +:+ Py.nl.

Definition Owner_ts : string :=
  "export interface Owner {" +:+ Py.nl +:+
  "  owner?: string;" +:+ Py.nl +:+
  "}" +:+ Py.nl.

(** ** The scenario of two classes in one file *)

Definition AuthorSerializer : class_obj :=
  {| cls_name := "AuthorSerializer"; cls_module := "api.serializers.books";
     cls_is_serializer := true;
     cls_get_fields := Some [("name", FieldObj "CharField")] |}.

Definition BookSerializer : class_obj :=
  {| cls_name := "BookSerializer"; cls_module := "api.serializers.books";
     cls_is_serializer := true;
     cls_get_fields := Some [("author", SerializerObj "AuthorSerializer");
                             ("title", FieldObj "CharField")] |}.

Definition books_py : source_file :=
  {| sf_parent := []; sf_name := "books.py";
     sf_members := Some [("AuthorSerializer", ClassObj AuthorSerializer);
                         ("BookSerializer", ClassObj BookSerializer);
                         ("serializers", OtherObj)] |}.

Definition books_locs : gmap string path :=
  <["Author" := ["out"; "Author.ts"]]> (<["Book" := ["out"; "Book.ts"]]> ∅).

Definition Author_ts : string :=
  "export interface Author {" +:+ Py.nl +:+
  "  name?: string;" +:+ Py.nl +:+
  "}" +:+ Py.nl.

Definition Book_ts : string :=
  "import type { Author } from './Author';" +:+ Py.nl +:+
  Py.nl +:+
  "export interface Book {" +:+ Py.nl +:+
  "  author?: Author;" +:+ Py.nl +:+
  "  title?: string;" +:+ Py.nl +:+
  "}" +:+ Py.nl.

Definition books_index_ts : string :=
  INDEX_HEADER +:+
  "export * from './Author';" +:+ Py.nl +:+
  "export * from './Book';" +:+ Py.nl.

Definition books_fs : gmap path string :=
  <[["out"; "Author.ts"] := Author_ts]>
    (<[["out"; "Book.ts"] := Book_ts]>
       (<[["out"; "tempindex.ts"] := books_index_ts]> ∅)).

(** ** A module with nested serializers and a package file *)

Definition TagSerializer : class_obj :=
  {| cls_name := "TagSerializer"; cls_module := "api.serializers.blog.posts";
     cls_is_serializer := true;
     cls_get_fields := Some [("label", FieldObj "CharField")] |}.

Definition PostSerializer : class_obj :=
  {| cls_name := "PostSerializer"; cls_module := "api.serializers.blog.posts";
     cls_is_serializer := true;
     cls_get_fields :=
       Some [("id", FieldObj "IntegerField");
             ("tags", ListSerializerObj "ListSerializer" (Some "TagSerializer"));
             ("author", SerializerObj "AuthorSerializer");
             ("meta", FieldObj "DictField");
             ("rating", FieldObj "StarRatingField")] |}.

(** A serializer imported from another module, a model class and a function
    next to the two serializers the module defines. *)
Definition posts_py : source_file :=
  {| sf_parent := ["blog"]; sf_name := "posts.py";
     sf_members := Some [("AuthorSerializer", ClassObj AuthorSerializer);
                         ("Post", ClassObj {| cls_name := "Post";
                                              cls_module := "blog.models";
                                              cls_is_serializer := false;
                                              cls_get_fields := None |});
                         ("PostSerializer", ClassObj PostSerializer);
                         ("TagSerializer", ClassObj TagSerializer);
                         ("slugify", OtherObj)] |}.

(** A package file that would fail to load if it were executed. *)
Definition init_py : source_file :=
  {| sf_parent := ["blog"]; sf_name := "__init__.py"; sf_members := None |}.

(** ** Two classes of one name in two directories *)

Definition UserSerializer_v1 : class_obj :=
  {| cls_name := "UserSerializer"; cls_module := "api.serializers.v1.users";
     cls_is_serializer := true;
     cls_get_fields := Some [("name", FieldObj "CharField")] |}.

Definition UserSerializer_v2 : class_obj :=
  {| cls_name := "UserSerializer"; cls_module := "api.serializers.v2.users";
     cls_is_serializer := true;
     cls_get_fields := Some [("name", FieldObj "CharField");
                             ("email", FieldObj "EmailField")] |}.

Definition users_v1_py : source_file :=
  {| sf_parent := ["v1"]; sf_name := "users.py";
     sf_members := Some [("UserSerializer", ClassObj UserSerializer_v1)] |}.

Definition users_v2_py : source_file :=
  {| sf_parent := ["v2"]; sf_name := "users.py";
     sf_members := Some [("UserSerializer", ClassObj UserSerializer_v2)] |}.

(** ** A serializer that nests itself *)

Definition NodeSerializer : class_obj :=
  {| cls_name := "NodeSerializer"; cls_module := "api.serializers.tree";
     cls_is_serializer := true;
     cls_get_fields :=
       Some [("label", FieldObj "CharField");
             ("children", ListSerializerObj "ListSerializer" (Some "NodeSerializer"))] |}.

(** ** A top-level interface named like the index file *)

Definition tempindexSerializer : class_obj :=
  {| cls_name := "tempindexSerializer"; cls_module := "api.serializers.misc";
     cls_is_serializer := true;
     cls_get_fields := Some [("size", FieldObj "IntegerField")] |}.

Definition misc_py : source_file :=
  {| sf_parent := []; sf_name := "misc.py";
     sf_members := Some [("tempindexSerializer", ClassObj tempindexSerializer)] |}.

(** A module without classes. *)
Definition helpers_py : source_file :=
  {| sf_parent := ["util"]; sf_name := "helpers.py";
     sf_members := Some [("slugify", OtherObj)] |}.

(** ** A top-level interface named like the index file that nests another *)



(** ** The output of the module with nested serializers scanned alone *)

Definition Post_ts : string :=
  "import type { Tag } from './Tag';" +:+ Py.nl +:+
  Py.nl +:+
  "export interface Post {" +:+ Py.nl +:+
  "  id?: number;" +:+ Py.nl +:+
  "  tags?: Tag[];" +:+ Py.nl +:+
  "  author?: Author;" +:+ Py.nl +:+
  "  meta?: Record<string, any>;" +:+ Py.nl +:+
  "  rating?: any;" +:+ Py.nl +:+
  "}" +:+ Py.nl.

Definition Tag_ts : string :=
  "export interface Tag {" +:+ Py.nl +:+
  "  label?: string;" +:+ Py.nl +:+
  "}" +:+ Py.nl.

Definition posts_index_ts : string :=
  INDEX_HEADER +:+
  "export * from './blog/Post';" +:+ Py.nl +:+
  "export * from './blog/Tag';" +:+ Py.nl.

Definition posts_locs : gmap string path :=
  <["Post" := ["out"; "blog"; "Post.ts"]]> (<["Tag" := ["out"; "blog"; "Tag.ts"]]> ∅).

Definition posts_fs : gmap path string :=
  <[["out"; "blog"; "Post.ts"] := Post_ts]>
    (<[["out"; "blog"; "Tag.ts"] := Tag_ts]>
       (<[["out"; "tempindex.ts"] := posts_index_ts]> ∅)).

(** ** A dependency below a directory whose name holds [.ts] *)






(** ** A class bound to another name than its own *)

(** A module that defines [FooSerializer] and [BarSerializer] and leaves the
    former bound to the name [Alias] only ([Alias = FooSerializer] followed
    by [del FooSerializer]). *)
Definition FooSerializer : class_obj :=
  {| cls_name := "FooSerializer"; cls_module := "api.serializers.aliases";
     cls_is_serializer := true;
     cls_get_fields := Some [("name", FieldObj "CharField")] |}.

Definition BarSerializer : class_obj :=
  {| cls_name := "BarSerializer"; cls_module := "api.serializers.aliases";
     cls_is_serializer := true;
     cls_get_fields := Some [("foo", SerializerObj "FooSerializer")] |}.

Definition aliases_py : source_file :=
  {| sf_parent := []; sf_name := "aliases.py";
     sf_members := Some [("Alias", ClassObj FooSerializer);
                         ("BarSerializer", ClassObj BarSerializer)] |}.

Definition Alias_ts : string :=
  "export interface Alias {" +:+ Py.nl +:+
  "  name?: string;" +:+ Py.nl +:+
  "}" +:+ Py.nl.

Definition Bar_ts : string :=
  Py.nl +:+
  "export interface Bar {" +:+ Py.nl +:+
  "  foo?: Foo;" +:+ Py.nl +:+
  "}" +:+ Py.nl.

(** * Properties *)

(** ** The library operations on small inputs *)

Example replace_suffix : Py.replace "Serializer" "" "BookSerializer" = "Book".
Proof. reflexivity. Qed.

Example replace_list_marker : Py.replace "[]" "" "Bar[]" = "Bar".
Proof. reflexivity. Qed.

Example replace_leftmost : Py.replace "aa" "b" "aaa" = "ba".
Proof. reflexivity. Qed.

Example sorted_code_points : Py.sorted ["b"; "a"; "B"] = ["B"; "a"; "b"].
Proof. reflexivity. Qed.

Example relpath_sibling :
  OsPath.relpath ["out"; "a"; "Author.ts"] ["out"; "b"; "c"] = "../../a/Author.ts".
Proof. reflexivity. Qed.

Example relpath_same : OsPath.relpath ["out"] ["out"] = ".".
Proof. reflexivity. Qed.

Example with_suffix_last_dot : OsPath.with_suffix_empty "book.v1.py" = "book.v1".
Proof. reflexivity. Qed.

Example module_path_nested : module_path_of posts_py = "api.serializers.blog.posts".
Proof. reflexivity. Qed.

(** ** Strings *)

Section StringFacts.

Lemma str_app_cons c a b : String c a +:+ b = String c (a +:+ b).
Proof. reflexivity. Qed.

Lemma str_app_empty_l b : EmptyString +:+ b = b.
Proof. reflexivity. Qed.

Lemma str_app_empty_r a : a +:+ EmptyString = a.
Proof. induction a as [|c a IH]; [done|]. by rewrite str_app_cons, IH. Qed.

Lemma str_app_assoc a b c : (a +:+ b) +:+ c = a +:+ (b +:+ c).
Proof. induction a as [|x a IH]; [done|]. by rewrite !str_app_cons, IH. Qed.

Lemma str_app_length a b : String.length (a +:+ b) = String.length a + String.length b.
Proof. induction a as [|x a IH]; [done|]. rewrite str_app_cons. simpl. by rewrite IH. Qed.

Lemma str_app_inj_r a b c : a +:+ c = b +:+ c → a = b.
Proof.
  revert b. induction a as [|x a IH]; intros [|y b] H; try done.
  - apply (f_equal String.length) in H. rewrite !str_app_length in H. simpl in H. lia.
  - apply (f_equal String.length) in H. rewrite !str_app_length in H. simpl in H. lia.
  - rewrite !str_app_cons in H. injection H as -> H. f_equal. by apply IH.
Qed.

Lemma prefix_cons o old x s :
  String.prefix (String o old) (String x s) = bool_decide (o = x) && String.prefix old s.
Proof. simpl. destruct (ascii_dec o x); case_bool_decide; done. Qed.

Lemma prefix_empty s : String.prefix EmptyString s = true.
Proof. by destruct s. Qed.

Lemma prefix_length old s : String.prefix old s = true → String.length old ≤ String.length s.
Proof.
  revert old. induction s as [|x s IH]; intros [|o old] H; simpl in *; try done; try lia.
  destruct (ascii_dec o x); [|done]. apply IH in H. lia.
Qed.

Lemma has_char_cons c x s : Py.has_char c (String x s) = Ascii.eqb c x || Py.has_char c s.
Proof. reflexivity. Qed.

Lemma has_char_app c a b : Py.has_char c (a +:+ b) = Py.has_char c a || Py.has_char c b.
Proof.
  induction a as [|x a IH]; [done|]. rewrite str_app_cons. simpl. rewrite IH.
  by rewrite orb_assoc.
Qed.

(** A pattern free of [c] cannot match across a [c]. *)
Lemma prefix_sep c old a b :
  Py.has_char c old = false →
  String.prefix old (a +:+ String c b) = String.prefix old a.
Proof.
  revert old. induction a as [|x a IH]; intros [|o old] Hc; try done.
  - rewrite str_app_empty_l, prefix_cons. simpl in Hc. apply orb_false_elim in Hc as [Hc _].
    apply Ascii.eqb_neq in Hc. case_bool_decide; [congruence|done].
  - rewrite str_app_cons, !prefix_cons. simpl in Hc. apply orb_false_elim in Hc as [_ Hc].
    by rewrite IH.
Qed.

Lemma replace_from_empty old new k : Py.replace_from old new k EmptyString = EmptyString.
Proof. reflexivity. Qed.

Lemma replace_from_skip old new k s :
  Py.replace_from old new k s = Py.replace_from old new 0 (Py.drop k s).
Proof.
  revert k. induction s as [|x s IH]; intros [|k]; try done. simpl. apply IH.
Qed.

(** Replacement distributes over a separator the pattern does not contain. *)
Lemma replace_from_sep c o old new a b k :
  Py.has_char c (String o old) = false → k ≤ String.length a →
  Py.replace_from (String o old) new k (a +:+ String c b)
  = Py.replace_from (String o old) new k a +:+ String c (Py.replace_from (String o old) new 0 b).
Proof.
  intros Hc. revert k. induction a as [|x a IH]; intros k Hk.
  - simpl in Hk. assert (k = 0) as -> by lia. rewrite str_app_empty_l.
    pose proof (prefix_sep c (String o old) EmptyString b Hc) as Hp.
    rewrite str_app_empty_l in Hp.
    change (Py.replace_from (String o old) new 0 (String c b))
      with (if String.prefix (String o old) (String c b)
            then new +:+ Py.replace_from (String o old) new (String.length (String o old) - 1) b
            else String c (Py.replace_from (String o old) new 0 b)).
    rewrite Hp. done.
  - rewrite str_app_cons. destruct k as [|k].
    + change (Py.replace_from (String o old) new 0 (String x (a +:+ String c b)))
        with (if String.prefix (String o old) (String x (a +:+ String c b))
              then new +:+ Py.replace_from (String o old) new (String.length (String o old) - 1) (a +:+ String c b)
              else String x (Py.replace_from (String o old) new 0 (a +:+ String c b))).
      change (Py.replace_from (String o old) new 0 (String x a))
        with (if String.prefix (String o old) (String x a)
              then new +:+ Py.replace_from (String o old) new (String.length (String o old) - 1) a
              else String x (Py.replace_from (String o old) new 0 a)).
      rewrite <- str_app_cons, (prefix_sep c _ (String x a) b Hc).
      destruct (String.prefix (String o old) (String x a)) eqn:Hp.
      * apply prefix_length in Hp. simpl in Hp. rewrite IH by (simpl; lia).
        by rewrite str_app_assoc.
      * rewrite IH by lia. by rewrite str_app_cons.
    + simpl. simpl in Hk. apply IH. lia.
Qed.

Lemma replace_from_0_cons old new x s :
  Py.replace_from old new 0 (String x s)
  = if String.prefix old (String x s)
    then new +:+ Py.replace_from old new (String.length old - 1) s
    else String x (Py.replace_from old new 0 s).
Proof. reflexivity. Qed.

(** Characters other than the first of the pattern are copied. *)
Lemma replace_from_nochar o old new n rest :
  Py.has_char o n = false →
  Py.replace_from (String o old) new 0 (n +:+ rest)
  = n +:+ Py.replace_from (String o old) new 0 rest.
Proof.
  induction n as [|x n IH]; intros Hc; [done|].
  simpl in Hc. apply orb_false_elim in Hc as [Hx Hc]. apply Ascii.eqb_neq in Hx.
  rewrite str_app_cons, replace_from_0_cons, prefix_cons.
  case_bool_decide; [done|]. simpl. by rewrite IH, str_app_cons.
Qed.

Lemma replace_occurs_false old new s :
  Py.occurs old s = false → Py.replace_from old new 0 s = s.
Proof.
  induction s as [|x s IH]; [done|]. intros H. simpl in H.
  apply orb_false_elim in H as [Hp H]. rewrite replace_from_0_cons.
  change (String.prefix old (String x s)) with
    (match old with EmptyString => true | String a s1' =>
       match ascii_dec a x with left _ => String.prefix s1' s | right _ => false end end).
  rewrite Hp. by rewrite IH.
Qed.

(** Replacing a one-character separator by itself changes nothing. *)
Lemma replace_from_same c s :
  Py.replace_from (String c EmptyString) (String c EmptyString) 0 s = s.
Proof.
  induction s as [|x s IH]; [done|].
  rewrite replace_from_0_cons, prefix_cons. simpl String.length. simpl Nat.sub.
  rewrite IH, prefix_empty. case_bool_decide; [subst; reflexivity|done].
Qed.

(** Removing a pattern adds no character. *)
Lemma has_char_replace_from c old k s :
  Py.has_char c (Py.replace_from old EmptyString k s) = true → Py.has_char c s = true.
Proof.
  revert k. induction s as [|x s IH]; intros k; [done|].
  destruct k as [|k].
  - rewrite replace_from_0_cons. destruct (String.prefix old (String x s)).
    + rewrite str_app_empty_l. intros H%IH. simpl. by rewrite H, orb_true_r.
    + simpl. intros [->| H%IH]%orb_true_iff; [done|]. by rewrite H, orb_true_r.
  - simpl. intros H%IH. by rewrite H, orb_true_r.
Qed.

Lemma join_cons sep x y l :
  Py.join sep (x :: y :: l) = x +:+ sep +:+ Py.join sep (y :: l).
Proof. reflexivity. Qed.

Lemma join_snoc sep l y :
  Py.join sep (l ++ [y])
  = match l with [] => y | _ => Py.join sep l +:+ sep +:+ y end.
Proof.
  induction l as [|x l IH]; [done|].
  destruct l as [|x' l]; [done|].
  change ((x :: x' :: l) ++ [y]) with (x :: x' :: (l ++ [y])).
  rewrite !join_cons. change (x' :: l ++ [y]) with ((x' :: l) ++ [y]).
  rewrite IH. by rewrite !str_app_assoc.
Qed.

(** Replacement works component by component on a joined path. *)
Lemma replace_from_join c o old new l :
  Py.has_char c (String o old) = false →
  Py.replace_from (String o old) new 0 (Py.join (String c EmptyString) l)
  = Py.join (String c EmptyString) (Py.replace_from (String o old) new 0 <$> l).
Proof.
  intros Hc. induction l as [|x l IH]; [done|].
  destruct l as [|y l]; [done|].
  rewrite join_cons. change (String c EmptyString +:+ ?s) with (String c s).
  rewrite (replace_from_sep c o old new x _ 0 Hc) by lia.
  rewrite IH. done.
Qed.

Lemma after_last_sep c a n :
  Py.has_char c n = false → Py.after_last c (a +:+ String c n) = n.
Proof.
  intros Hn. induction a as [|x a IH].
  - rewrite str_app_empty_l. simpl. by rewrite Hn, Ascii.eqb_refl.
  - rewrite str_app_cons. simpl. rewrite has_char_app. simpl.
    by rewrite Ascii.eqb_refl, orb_true_r.
Qed.

Lemma after_last_none c n : Py.has_char c n = false → Py.after_last c n = n.
Proof.
  destruct n as [|x n]; [done|]. simpl.
  intros [Hx Hn]%orb_false_elim. rewrite Hn.
  rewrite Ascii.eqb_sym in Hx. by rewrite Hx.
Qed.

(** No proper suffix of [Serializer] starts it again, so an occurrence that
    begins before the suffix lies wholly before it. *)
Lemma prefix_Serializer_border c b :
  String.prefix "Serializer" (String c b +:+ "Serializer") = true →
  String.prefix "Serializer" (String c b) = true.
Proof.
  rewrite str_app_cons.
  repeat (rewrite prefix_cons; case_bool_decide; [subst|done];
          destruct b as [|? b]; [done|]; rewrite ?str_app_cons).
  done.
Qed.

Lemma derive_name_suffix_only base :
  Py.occurs "Serializer" base = false → derive_name (base +:+ "Serializer") = base.
Proof.
  unfold derive_name. change (Py.replace "Serializer" "" ?s) with (Py.replace_from "Serializer" "" 0 s).
  induction base as [|c b IH]; [done|]. intros H. simpl in H.
  apply orb_false_elim in H as [Hp H].
  rewrite str_app_cons, replace_from_0_cons, <- str_app_cons.
  destruct (String.prefix "Serializer" (String c b +:+ "Serializer")) eqn:Hp'.
  - apply prefix_Serializer_border in Hp'. simpl in Hp'. congruence.
  - by rewrite IH.
Qed.

End StringFacts.

(** ** Ordered dictionaries *)

Section DictFacts.
Context {V : Type}.
Implicit Types (d : list (string * V)) (k : string) (v : V).

Lemma dict_get_set d k v k' :
  Dict.get (Dict.set d k v) k' = if decide (k = k') then Some v else Dict.get d k'.
Proof.
  induction d as [|[k0 v0] d IH]; simpl.
  - repeat case_decide; congruence.
  - destruct (decide (k0 = k)) as [->|Hne]; simpl.
    + repeat case_decide; congruence.
    + rewrite IH. repeat case_decide; congruence.
Qed.

Lemma dict_keys_set d k v :
  Dict.keys (Dict.set d k v)
  = if decide (k ∈ Dict.keys d) then Dict.keys d else Dict.keys d ++ [k].
Proof.
  unfold Dict.keys. induction d as [|[k0 v0] d IH]; cbn [Dict.set].
  - rewrite decide_False by apply not_elem_of_nil. done.
  - destruct (decide (k0 = k)) as [->|Hne]; rewrite !fmap_cons; cbn [fst].
    + rewrite decide_True by left. done.
    + rewrite IH. destruct (decide (k ∈ d.*1)) as [Hin|Hin].
      * rewrite decide_True by (by right). done.
      * rewrite decide_False; [done|]. intros [?|?]%elem_of_cons; congruence.
Qed.

Lemma dict_keys_set_NoDup d k v :
  NoDup (Dict.keys d) → NoDup (Dict.keys (Dict.set d k v)).
Proof.
  intros Hd. rewrite dict_keys_set. case_decide; [done|].
  apply NoDup_app. split_and!; [done| |apply NoDup_singleton].
  intros x Hx ->%list_elem_of_singleton. done.
Qed.

Lemma dict_elem_of_set d k v k' v' :
  (k', v') ∈ Dict.set d k v → (k' = k ∧ v' = v) ∨ (k', v') ∈ d.
Proof.
  induction d as [|[k0 v0] d IH]; simpl.
  - intros ?%list_elem_of_singleton. left. by simplify_eq.
  - destruct (decide (k0 = k)) as [->|Hne].
    + intros [?|?]%elem_of_cons; [left; by simplify_eq|right; by right].
    + intros [->|[?|?]%IH]%elem_of_cons; [right; left|by left|right; by right].
Qed.

Lemma dict_get_Some_elem_of d k v : Dict.get d k = Some v → (k, v) ∈ d.
Proof.
  induction d as [|[k0 v0] d IH]; simpl; [done|].
  case_decide; [intros; simplify_eq; left|right; auto].
Qed.

Lemma dict_get_None d k : Dict.get d k = None ↔ k ∉ Dict.keys d.
Proof.
  unfold Dict.keys. induction d as [|[k0 v0] d IH]; simpl.
  - split; [intros _ ?%elem_of_nil; done|done].
  - case_decide as Hk.
    + subst. split; [done|]. intros []. left.
    + rewrite IH, not_elem_of_cons. split; [by intros ?; split; [congruence|]|by intros [_ ?]].
Qed.

Lemma dict_elem_of_get d k v :
  NoDup (Dict.keys d) → (k, v) ∈ d → Dict.get d k = Some v.
Proof.
  unfold Dict.keys. induction d as [|[k0 v0] d IH]; simpl.
  - intros _ ?%elem_of_nil. done.
  - intros [Hk0 Hd]%NoDup_cons [?|Hin]%elem_of_cons.
    + simplify_eq. by rewrite decide_True.
    + case_decide; [|by apply IH]. subst. destruct Hk0.
      apply list_elem_of_fmap. by exists (k, v).
Qed.

Lemma dict_elem_of_keys d k : k ∈ Dict.keys d ↔ ∃ v, Dict.get d k = Some v.
Proof.
  destruct (Dict.get d k) as [v|] eqn:H.
  - split; [eauto|]. intros _. apply dict_get_Some_elem_of in H.
    apply list_elem_of_fmap. by exists (k, v).
  - apply dict_get_None in H. split; [done|]. intros [? ?]. done.
Qed.

End DictFacts.

(** ** Loops that may abort *)

Section ForEach.
Context {S A : Type} (body : S → A → option S).

Lemma for_each_app st xs ys :
  for_each body st (xs ++ ys) = for_each body st xs ≫= λ st', for_each body st' ys.
Proof.
  revert st. induction xs as [|x xs IH]; intros st; [done|].
  simpl. destruct (body st x) as [st1|]; simpl; [apply IH|done].
Qed.

Lemma for_each_ind (P : list A → S → Prop) st0 xs st' :
  P [] st0 →
  (∀ done x st st1, P done st → body st x = Some st1 → P (done ++ [x]) st1) →
  for_each body st0 xs = Some st' → P xs st'.
Proof.
  intros H0 Hstep. enough (∀ done st, P done st →
    for_each body st xs = Some st' → P (done ++ xs) st') as H by apply (H [] st0 H0).
  induction xs as [|x xs IH]; intros done st HP Hrun; simpl in Hrun.
  - simplify_eq. by rewrite app_nil_r.
  - destruct (body st x) as [st1|] eqn:Hb; [|done]. simpl in Hrun.
    rewrite (assoc_L (++) done [x] xs : done ++ x :: xs = (done ++ [x]) ++ xs).
    apply (IH _ st1); [by eapply Hstep|done].
Qed.

Lemma for_each_is_Some st xs :
  (∀ x s, x ∈ xs → is_Some (body s x)) → is_Some (for_each body st xs).
Proof.
  revert st. induction xs as [|x xs IH]; intros st H; simpl; [by eexists|].
  destruct (H x st) as [st1 ->]; [left|]. simpl. apply IH.
  intros y s Hy. apply H. by right.
Qed.

Lemma for_each_Some_inv st xs st' :
  for_each body st xs = Some st' → ∀ x, x ∈ xs → ∃ s, is_Some (body s x).
Proof.
  revert st. induction xs as [|x xs IH]; intros st Hrun y Hy.
  - by apply elem_of_nil in Hy.
  - simpl in Hrun. destruct (body st x) as [st1|] eqn:Hb; [|done]. simpl in Hrun.
    apply elem_of_cons in Hy as [->|Hy]; [exists st; by rewrite Hb|by eapply IH].
Qed.

Lemma for_each_preserve (Q : S → Prop) xs st st' :
  (∀ s x s', x ∈ xs → body s x = Some s' → Q s → Q s') →
  Q st → for_each body st xs = Some st' → Q st'.
Proof.
  revert st. induction xs as [|x xs IH]; intros st Hstep HQ Hrun; simpl in Hrun.
  - by simplify_eq.
  - destruct (body st x) as [s1|] eqn:Hb; [|done]. simpl in Hrun.
    apply (IH s1); [|by eapply Hstep; [left|..]|done].
    intros s y s' Hy. apply Hstep. by right.
Qed.

Lemma for_each_app_Some xs ys st st' :
  for_each body st (xs ++ ys) = Some st' →
  ∃ s, for_each body st xs = Some s ∧ for_each body s ys = Some st'.
Proof.
  rewrite for_each_app. destruct (for_each body st xs) as [s|]; [|done]. eauto.
Qed.

End ForEach.

Section RunFacts.
Variable out_base : path.
Implicit Types (st : discovery) (D : path → string → list (string * string) → Prop).

Lemma discovery_inv_iff D D' st :
  (∀ p n f, D p n f ↔ D' p n f) → discovery_inv out_base D st → discovery_inv out_base D' st.
Proof.
  intros HD (Hnd & Hsound & Hcompl). split_and!; [done| |].
  - intros n f p H. destruct (Hsound n f p H) as (parent & ? & ?).
    exists parent. split; [by apply HD|done].
  - intros parent n f H%HD. eauto.
Qed.

Lemma find_serializer_classes_elem file module_path found n cls :
  find_serializer_classes file module_path = Some found →
  (n, cls) ∈ found ↔
  ∃ members attr, sf_members file = Some members ∧ (attr, ClassObj cls) ∈ members ∧
    qualifies cls module_path = true ∧ n = derive_name attr.
Proof.
  unfold find_serializer_classes. destruct (sf_members file) as [members|]; [|done].
  intros [= <-]. rewrite list_elem_of_omap. split.
  - intros ([attr [c|]] & Hin & Hq); [|done].
    destruct (qualifies c module_path) eqn:Hc; [|done]. simplify_eq. eauto 10.
  - intros (? & attr & [= <-] & Hin & Hq & ->). exists (attr, ClassObj cls).
    split; [done|]. by rewrite Hq.
Qed.

Lemma register_class_Some parent st n cls st' :
  register_class out_base parent st (n, cls) = Some st' ↔
  ∃ fields, extract_serializer_fields cls = Some fields ∧
    st' = {| interface_locations :=
               <[n := out_path_of out_base parent n]> (interface_locations st);
             all_interfaces :=
               Dict.set (all_interfaces st) n (fields, out_path_of out_base parent n) |}.
Proof.
  unfold register_class, out_path_of.
  destruct (extract_serializer_fields cls) as [fields|]; simpl.
  - split; [intros [= <-]; eauto|intros (? & [= <-] & ->); done].
  - split; [done|intros (? & ? & _); done].
Qed.

Lemma register_class_inv D parent st n cls st' :
  register_class out_base parent st (n, cls) = Some st' →
  discovery_inv out_base D st →
  discovery_inv out_base
    (λ p' n' f', D p' n' f' ∨
       (p' = parent ∧ n' = n ∧ extract_serializer_fields cls = Some f')) st'.
Proof.
  intros (fields & Hf & ->)%register_class_Some (Hnd & Hsound & Hcompl).
  split_and!; simpl.
  - by apply dict_keys_set_NoDup.
  - intros n' f' p'. rewrite dict_get_set. case_decide as Hn.
    + intros [= <- <-]. subst n'. exists parent. eauto.
    + intros (p0 & ? & ?)%Hsound. exists p0. eauto.
  - intros p' n' f' [HD|(-> & -> & _)]; rewrite dict_keys_set; case_decide;
      rewrite ?elem_of_app, ?list_elem_of_singleton; eauto.
Qed.

Lemma register_loop_inv D parent found st st' :
  for_each (register_class out_base parent) st found = Some st' →
  discovery_inv out_base D st →
  discovery_inv out_base
    (λ p n f, D p n f ∨
       (p = parent ∧ ∃ cls, (n, cls) ∈ found ∧ extract_serializer_fields cls = Some f)) st'.
Proof.
  intros Hrun HD.
  apply (for_each_ind (register_class out_base parent) (λ done s, discovery_inv out_base
    (λ p n f, D p n f ∨ (p = parent ∧ ∃ cls, (n, cls) ∈ done ∧
       extract_serializer_fields cls = Some f)) s) st found st'); [| |done].
  - eapply discovery_inv_iff; [|exact HD]. intros p n f. split; [by left|].
    intros [?|(_ & ? & []%elem_of_nil & _)]. done.
  - intros done [n cls] s s1 Hs Hreg.
    eapply discovery_inv_iff; [|exact (register_class_inv _ _ _ _ _ _ Hreg Hs)].
    intros p n' f. simpl. split.
    + intros [[?|(-> & c & Hin & Hf)]|(-> & -> & Hf)]; [by left|right; split; [done|]..].
      * exists c. split; [apply elem_of_app; by left|done].
      * exists cls. split; [apply elem_of_app; right; by apply list_elem_of_singleton|done].
    + intros [?|(-> & c & [Hin|[= -> ->]%list_elem_of_singleton]%elem_of_app & Hf)];
        [left; by left|left; right; eauto|right; done].
Qed.

Lemma scan_file_inv D file st st' :
  scan_file out_base st file = Some st' →
  discovery_inv out_base D st →
  discovery_inv out_base (λ p n f, D p n f ∨ discovers_in file p n f) st'.
Proof.
  unfold scan_file. destruct (Py.startswith "__" (sf_name file)) eqn:Hd.
  - intros [= <-] HD. eapply discovery_inv_iff; [|exact HD].
    intros p n f. split; [by left|]. intros [?|(? & _)]; [done|congruence].
  - destruct (find_serializer_classes file (module_path_of file)) as [found|] eqn:Hf;
      [|done]. simpl. intros Hrun HD.
    eapply discovery_inv_iff; [|exact (register_loop_inv _ _ _ _ _ Hrun HD)].
    intros p n f. apply or_iff_compat_l. unfold discovers_in. split.
    + intros (-> & cls & Hin & He).
      apply (find_serializer_classes_elem _ _ _ _ _ Hf) in Hin
        as (members & attr & ? & ? & ? & ?).
      split_and!; [done..|]. exists members, attr, cls. done.
    + intros (_ & -> & members & attr & cls & ? & ? & ? & -> & ?).
      split; [done|]. exists cls. split; [|done].
      apply (find_serializer_classes_elem _ _ _ _ _ Hf). by exists members, attr.
Qed.

Lemma scan_loop_inv D files st st' :
  for_each (scan_file out_base) st files = Some st' →
  discovery_inv out_base D st →
  discovery_inv out_base (λ p n f, D p n f ∨ discovers files p n f) st'.
Proof.
  intros Hrun HD.
  apply (for_each_ind (scan_file out_base) (λ done s, discovery_inv out_base
    (λ p n f, D p n f ∨ discovers done p n f) s) st files st'); [| |done].
  - eapply discovery_inv_iff; [|exact HD]. intros p n f. split; [by left|].
    intros [?|(f0 & Hnil%elem_of_nil & _)]; done.
  - intros done file s s1 Hs Hscan.
    eapply discovery_inv_iff; [|exact (scan_file_inv _ _ _ _ Hscan Hs)].
    intros p n f. simpl. unfold discovers. split.
    + intros [[?|(f0 & ? & ?)]|?]; [by left|right..]; [exists f0|exists file];
        (split; [apply elem_of_app|done]); [by left|right; by apply list_elem_of_singleton].
    + intros [?|(f0 & [?| ->%list_elem_of_singleton]%elem_of_app & ?)];
        [left; by left|left; right; eauto|right; done].
Qed.

(** What the first loop of [main] leaves: one entry per derived name, each
    from a discovered class, and no discovered name missing. *)
Lemma discover_inv files locs0 st :
  discover out_base files locs0 = Some st → discovery_inv out_base (discovers files) st.
Proof.
  intros Hrun. eapply discovery_inv_iff;
    [|apply (scan_loop_inv (λ _ _ _, False) _ _ _ Hrun)].
  - intros p n f. split; [by intros [[]|?]|by right].
  - split_and!; simpl; [constructor|done|done].
Qed.

End RunFacts.

(** ** Field mapping *)

Section MapperFacts.

Lemma extract_serializer_fields_is_Some cls :
  is_Some (extract_serializer_fields cls) ↔ is_Some (cls_get_fields cls).
Proof.
  unfold extract_serializer_fields. destruct (cls_get_fields cls); [|by split; intros []].
  split; by eexists.
Qed.

Lemma extract_fold_snoc (d : list (string * string)) items k field :
  foldl (λ fields '(field_name, field), Dict.set fields field_name (field_ts_type field))
    d (items ++ [(k, field)])
  = Dict.set (foldl (λ fields '(field_name, field),
                       Dict.set fields field_name (field_ts_type field)) d items)
      k (field_ts_type field).
Proof. by rewrite foldl_app. Qed.

(** The mapping has one entry per field name, typed by the last field of
    that name. *)
Lemma extract_serializer_fields_spec cls items :
  cls_get_fields cls = Some items →
  ∃ fields, extract_serializer_fields cls = Some fields ∧
    NoDup (Dict.keys fields) ∧
    (∀ k, k ∈ Dict.keys fields ↔ k ∈ items.*1) ∧
    (∀ k t, (k, t) ∈ fields → ∃ field, (k, field) ∈ items ∧ t = field_ts_type field).
Proof.
  intros Hi. unfold extract_serializer_fields. rewrite Hi. eexists. split; [done|].
  clear Hi. induction items as [|[k field] items IH] using rev_ind.
  - split_and!; [constructor|done|]. intros k t Hnil%elem_of_nil. done.
  - destruct IH as (Hnd & Hkeys & Hty). rewrite extract_fold_snoc.
    split_and!.
    + by apply dict_keys_set_NoDup.
    + intros k'. rewrite dict_keys_set, fmap_app, elem_of_app, <- Hkeys. simpl.
      rewrite list_elem_of_singleton. case_decide as Hin.
      * split; [by left|]. intros [?| ->]; done.
      * by rewrite elem_of_app, list_elem_of_singleton.
    + intros k' t [[-> ->]|Hin]%dict_elem_of_set.
      * exists field. split; [|done]. apply elem_of_app. right. by apply list_elem_of_singleton.
      * destruct (Hty _ _ Hin) as (f0 & ? & ?). exists f0. split; [|done].
        apply elem_of_app. by left.
Qed.

(** A field set without repeated names, which is what a dictionary gives,
    is mapped entry by entry. *)
Lemma extract_serializer_fields_NoDup cls items :
  cls_get_fields cls = Some items → NoDup items.*1 →
  extract_serializer_fields cls
  = Some ((λ item, (item.1, field_ts_type item.2)) <$> items).
Proof.
  intros Hi. unfold extract_serializer_fields. rewrite Hi. clear Hi. intros Hnd. f_equal.
  induction items as [|[k field] items IH] using rev_ind; [done|].
  rewrite extract_fold_snoc, fmap_app. rewrite fmap_app in Hnd.
  apply NoDup_app in Hnd as (Hnd & Hfresh & _). rewrite IH by done. clear IH.
  assert (k ∉ items.*1) as Hk.
  { intros Hin. apply (Hfresh _ Hin). by apply list_elem_of_singleton. }
  clear Hfresh Hnd. induction items as [|[k0 f0] items IH]; [done|].
  rewrite fmap_cons in Hk. apply not_elem_of_cons in Hk as [Hne Hk].
  simpl. rewrite decide_False by done. f_equal. by apply IH.
Qed.

End MapperFacts.

(** ** Known locations and success of the first loop *)

Section DiscoverFacts.
Variable out_base : path.
Implicit Types (st : discovery).

Lemma loc_map_set (d : list (string * (list (string * string) * path))) n f p :
  loc_map (Dict.set d n (f, p)) = <[n := p]> (loc_map d).
Proof.
  unfold loc_map. induction d as [|[k v] d IH]; [done|]. cbn [Dict.set].
  destruct (decide (k = n)) as [->|Hne]; rewrite !fmap_cons, !list_to_map_cons; cbn [fst snd].
  - by rewrite insert_insert_eq.
  - rewrite IH. by apply insert_insert_ne.
Qed.

Lemma loc_map_lookup (d : list (string * (list (string * string) * path))) n :
  loc_map d !! n = snd <$> Dict.get d n.
Proof.
  unfold loc_map. induction d as [|[k v] d IH]; [done|]. cbn [Dict.get].
  rewrite fmap_cons, list_to_map_cons, lookup_insert. cbn [fst snd].
  destruct (decide (k = n)); [done|apply IH].
Qed.

Lemma register_class_locs parent st found st' m :
  register_class out_base parent st found = Some st' →
  interface_locations st = loc_map (all_interfaces st) ∪ m →
  interface_locations st' = loc_map (all_interfaces st') ∪ m.
Proof.
  destruct found as [n cls]. intros (fields & _ & ->)%register_class_Some Hm. simpl.
  by rewrite loc_map_set, Hm, insert_union_l.
Qed.

Lemma scan_file_locs st file st' m :
  scan_file out_base st file = Some st' →
  interface_locations st = loc_map (all_interfaces st) ∪ m →
  interface_locations st' = loc_map (all_interfaces st') ∪ m.
Proof.
  unfold scan_file. destruct (Py.startswith "__" (sf_name file)); [by intros [= <-]|].
  destruct (find_serializer_classes file (module_path_of file)) as [found|]; [|done].
  simpl. intros Hrun Hm.
  apply (for_each_ind (register_class out_base (sf_parent file))
    (λ _ s, interface_locations s = loc_map (all_interfaces s) ∪ m) st found st');
    [done| |done].
  intros _ x s s1 Hs Hreg. by eapply register_class_locs.
Qed.

(** The locations known after discovery: those of [all_interfaces], over
    what the module-level dictionary held before. *)
Lemma discover_locs files locs0 st :
  discover out_base files locs0 = Some st →
  interface_locations st = loc_map (all_interfaces st) ∪ locs0.
Proof.
  intros Hrun.
  apply (for_each_ind (scan_file out_base)
    (λ _ s, interface_locations s = loc_map (all_interfaces s) ∪ locs0)
    {| interface_locations := locs0; all_interfaces := [] |} files st);
    [|intros _ x s s1 Hs Hscan; by eapply scan_file_locs|done].
  cbn [interface_locations all_interfaces]. unfold loc_map.
  rewrite fmap_nil, list_to_map_nil. by rewrite (left_id_L ∅ (∪)).
Qed.

Lemma register_class_relocate parent st found st' l :
  register_class out_base parent st found = Some st' →
  ∃ l', register_class out_base parent
          {| interface_locations := l; all_interfaces := all_interfaces st |} found
        = Some {| interface_locations := l'; all_interfaces := all_interfaces st' |}.
Proof.
  destruct found as [n cls]. intros (fields & Hf & ->)%register_class_Some.
  eexists. apply register_class_Some. exists fields. split; [done|]. done.
Qed.

Lemma for_each_relocate {A} (body : discovery → A → option discovery) xs :
  (∀ st x st' l, body st x = Some st' →
     ∃ l', body {| interface_locations := l; all_interfaces := all_interfaces st |} x
           = Some {| interface_locations := l'; all_interfaces := all_interfaces st' |}) →
  ∀ st st' l, for_each body st xs = Some st' →
    ∃ l', for_each body {| interface_locations := l; all_interfaces := all_interfaces st |} xs
          = Some {| interface_locations := l'; all_interfaces := all_interfaces st' |}.
Proof.
  intros Hbody. induction xs as [|x xs IH]; intros st st' l Hrun; simpl in *.
  - simplify_eq. by eexists.
  - destruct (body st x) as [st1|] eqn:Hb; [|done]. simpl in Hrun.
    destruct (Hbody _ _ _ l Hb) as (l1 & Hb'). rewrite Hb'. simpl.
    destruct (IH _ _ l1 Hrun) as (l' & Hrun'). eauto.
Qed.

Lemma scan_file_relocate st file st' l :
  scan_file out_base st file = Some st' →
  ∃ l', scan_file out_base
          {| interface_locations := l; all_interfaces := all_interfaces st |} file
        = Some {| interface_locations := l'; all_interfaces := all_interfaces st' |}.
Proof.
  unfold scan_file. destruct (Py.startswith "__" (sf_name file)).
  - intros [= <-]. by eexists.
  - destruct (find_serializer_classes file (module_path_of file)) as [found|]; [|done].
    simpl. apply for_each_relocate. intros. by eapply register_class_relocate.
Qed.

(** [all_interfaces] does not depend on what [interface_locations] held. *)
Lemma discover_relocate files locs0 st locs0' :
  discover out_base files locs0 = Some st →
  ∃ st', discover out_base files locs0' = Some st' ∧
    all_interfaces st' = all_interfaces st.
Proof.
  intros Hrun. unfold discover in *.
  eapply (for_each_relocate _ files) in Hrun as (l' & Hrun);
    [|intros; by eapply scan_file_relocate].
  simpl in Hrun. rewrite Hrun. eauto.
Qed.

Lemma register_class_is_Some parent st n cls :
  is_Some (register_class out_base parent st (n, cls)) ↔ is_Some (cls_get_fields cls).
Proof.
  rewrite <- extract_serializer_fields_is_Some. unfold register_class.
  destruct (extract_serializer_fields cls) as [fields|]; simpl.
  - split; intros _; by eexists.
  - split; intros [? ?]; done.
Qed.

Lemma scan_file_is_Some st file : is_Some (scan_file out_base st file) ↔ loads_cleanly file.
Proof.
  unfold scan_file, loads_cleanly.
  destruct (Py.startswith "__" (sf_name file)); [split; [done|by eexists]|].
  destruct (find_serializer_classes file (module_path_of file)) as [found|] eqn:Hf; simpl.
  - pose proof Hf as Hm. unfold find_serializer_classes in Hm.
    destruct (sf_members file) as [members|] eqn:Hmem; [|done]. clear Hm. split.
    + intros [st' Hrun] _. exists members. split; [done|]. intros attr cls Hin Hq.
      destruct (for_each_Some_inv _ _ _ _ Hrun (derive_name attr, cls)) as (s & Hs).
      { apply (find_serializer_classes_elem _ _ _ _ _ Hf). by exists members, attr. }
      by apply register_class_is_Some in Hs.
    + intros H. destruct (H eq_refl) as (? & [= <-] & Hall).
      apply for_each_is_Some. intros [n cls] s
        (m' & attr & Hm' & Hin & Hq & ->)%(find_serializer_classes_elem _ _ _ _ _ Hf).
      rewrite Hmem in Hm'. simplify_eq. apply register_class_is_Some. eauto.
  - unfold find_serializer_classes in Hf. destruct (sf_members file); [done|].
    split; [by intros []|]. intros H. by destruct (H eq_refl) as (? & ? & _).
Qed.

Lemma register_class_other parent st m cls st' n :
  register_class out_base parent st (m, cls) = Some st' → m ≠ n →
  Dict.get (all_interfaces st') n = Dict.get (all_interfaces st) n ∧
  interface_locations st' !! n = interface_locations st !! n.
Proof.
  intros (fields & _ & ->)%register_class_Some Hne. simpl.
  by rewrite dict_get_set, decide_False, lookup_insert_ne.
Qed.

Lemma scan_file_other st file st' n :
  scan_file out_base st file = Some st' →
  (∀ parent fields, ¬ discovers_in file parent n fields) →
  Dict.get (all_interfaces st') n = Dict.get (all_interfaces st) n ∧
  interface_locations st' !! n = interface_locations st !! n.
Proof.
  unfold scan_file. destruct (Py.startswith "__" (sf_name file)) eqn:Hd.
  { by intros [= <-]. }
  destruct (find_serializer_classes file (module_path_of file)) as [found|] eqn:Hf;
    [|done]. simpl. intros Hrun Hn.
  apply (for_each_preserve (register_class out_base (sf_parent file))
    (λ s, Dict.get (all_interfaces s) n = Dict.get (all_interfaces st) n ∧
          interface_locations s !! n = interface_locations st !! n) found st st');
    [|done|done].
  intros s [m cls] s' Hin Hreg [Hg Hl].
  destruct (register_class_other _ _ _ _ _ n Hreg) as [Hg' Hl'].
  - intros ->. apply register_class_Some in Hreg as (fields & He & _).
    apply (find_serializer_classes_elem _ _ _ _ _ Hf) in Hin
      as (members & attr & ? & ? & ? & ?).
    apply (Hn (sf_parent file) fields). split_and!; [done..|].
    by exists members, attr, cls.
  - by rewrite Hg', Hl'.
Qed.

(** The pair registered last under a name is the one discovery keeps. *)
Lemma registered_last files1 file files2 locs0 st found1 n cls found2 :
  discover out_base (files1 ++ file :: files2) locs0 = Some st →
  Py.startswith "__" (sf_name file) = false →
  find_serializer_classes file (module_path_of file) = Some (found1 ++ (n, cls) :: found2) →
  n ∉ found2.*1 →
  (∀ f parent fields, f ∈ files2 → ¬ discovers_in f parent n fields) →
  ∃ fields, extract_serializer_fields cls = Some fields ∧
    Dict.get (all_interfaces st) n
      = Some (fields, out_path_of out_base (sf_parent file) n).
Proof.
  intros Hd Hdunder Hf Hn2 Hfiles2. unfold discover in Hd.
  apply for_each_app_Some in Hd as (sa & _ & Hd). cbn [for_each] in Hd.
  destruct (scan_file out_base sa file) as [sb|] eqn:Hscan; [|discriminate Hd].
  cbn [mbind option_bind] in Hd.
  unfold scan_file in Hscan. rewrite Hdunder, Hf in Hscan. cbn [mbind option_bind] in Hscan.
  apply for_each_app_Some in Hscan as (s1 & _ & Hscan). cbn [for_each] in Hscan.
  destruct (register_class out_base (sf_parent file) s1 (n, cls)) as [s2|] eqn:Hreg;
    [|discriminate Hscan]. cbn [mbind option_bind] in Hscan.
  apply register_class_Some in Hreg as (fields & He & ->).
  exists fields. split; [done|].
  assert (Dict.get (all_interfaces sb) n
            = Some (fields, out_path_of out_base (sf_parent file) n)) as Hsb.
  { eapply (for_each_preserve (register_class out_base (sf_parent file))
      (λ s, Dict.get (all_interfaces s) n
              = Some (fields, out_path_of out_base (sf_parent file) n)) found2 _ sb);
      [| |exact Hscan].
    - intros s [m c] s' Hin Hreg Hg.
      destruct (register_class_other _ _ _ _ _ n Hreg) as [Hg' _].
      + intros ->. apply Hn2. apply list_elem_of_fmap. by exists (n, c).
      + by rewrite Hg'.
    - cbn [all_interfaces]. by rewrite dict_get_set, decide_True. }
  apply (for_each_preserve (scan_file out_base)
    (λ s, Dict.get (all_interfaces s) n
            = Some (fields, out_path_of out_base (sf_parent file) n)) files2 sb st);
    [|done|done].
  intros s f s' Hin Hs Hg.
  destruct (scan_file_other _ _ _ n Hs) as [Hg' _]; [by eauto|]. by rewrite Hg'.
Qed.

(** The first loop completes exactly when every scanned file loads and
    every qualifying class gives its fields. *)
Lemma discover_is_Some files locs0 :
  is_Some (discover out_base files locs0) ↔ ∀ file, file ∈ files → loads_cleanly file.
Proof.
  split.
  - intros [st Hrun] file Hin.
    destruct (for_each_Some_inv _ _ _ _ Hrun file Hin) as (s & Hs).
    by apply scan_file_is_Some in Hs.
  - intros H. apply for_each_is_Some. intros file s Hin. apply scan_file_is_Some. auto.
Qed.

End DiscoverFacts.

(** ** Writing *)

Section WriteFacts.
Variable out_base : path.

Lemma apply_writes_app ws1 ws2 m :
  apply_writes (ws1 ++ ws2) m = apply_writes ws2 (apply_writes ws1 m).
Proof. unfold apply_writes. by rewrite foldl_app. Qed.

(** Later writes win: the tree is the reversed log laid over what was
    there. *)
Lemma apply_writes_union ws m :
  apply_writes ws m = list_to_map (reverse ws) ∪ m.
Proof.
  induction ws as [|[p c] ws IH] using rev_ind.
  - unfold apply_writes. simpl. by rewrite (left_id_L ∅ (∪)).
  - rewrite apply_writes_app, IH, reverse_snoc, list_to_map_cons.
    cbn [fst snd]. apply insert_union_l.
Qed.

(** Writing the same files again over the result changes nothing. *)
Lemma apply_writes_idemp ws m :
  apply_writes ws (apply_writes ws m) = apply_writes ws m.
Proof.
  rewrite !apply_writes_union, (assoc_L (∪)). by rewrite (idemp_L (∪)).
Qed.

Lemma apply_writes_lookup_ne ws m p :
  p ∉ ws.*1 → apply_writes ws m !! p = m !! p.
Proof.
  revert m. induction ws as [|[q c] ws IH]; intros m Hp; [done|].
  rewrite fmap_cons in Hp. apply not_elem_of_cons in Hp as [Hne Hp].
  change (apply_writes ((q, c) :: ws) m) with (apply_writes ws (<[q := c]> m)).
  rewrite IH by done. by apply lookup_insert_ne.
Qed.

Lemma apply_writes_lookup ws m p c :
  NoDup ws.*1 → (p, c) ∈ ws → apply_writes ws m !! p = Some c.
Proof.
  revert m. induction ws as [|[q c'] ws IH]; intros m Hnd Hin.
  - by apply elem_of_nil in Hin.
  - rewrite fmap_cons in Hnd. apply NoDup_cons in Hnd as [Hq Hnd].
    change (apply_writes ((q, c') :: ws) m) with (apply_writes ws (<[q := c']> m)).
    apply elem_of_cons in Hin as [[= -> ->]|Hin].
    + rewrite apply_writes_lookup_ne by done. apply lookup_insert_eq.
    + by apply IH.
Qed.

Lemma emit_loop_fs locs (all : list interface_entry) w :
  fs (foldl (emit_interface out_base locs) w all)
  = apply_writes (interface_file locs <$> all) (fs w).
Proof.
  revert w. induction all as [|[n [fields p]] all IH]; intros w; [done|].
  simpl. rewrite IH. done.
Qed.

Lemma emit_loop_index_lines locs (all : list interface_entry) w :
  index_lines (foldl (emit_interface out_base locs) w all)
  = index_lines w ++ (index_line out_base <$> all).
Proof.
  revert w. induction all as [|[n [fields p]] all IH]; intros w.
  - simpl. by rewrite app_nil_r.
  - simpl. rewrite IH. simpl. by rewrite <- (assoc_L (++)).
Qed.

(** [main] is discovery followed by the writes of [run_writes]. *)
Lemma main_Some files locs0 fs0 locs fs1 :
  main out_base files locs0 fs0 = Some (locs, fs1) ↔
  ∃ st, discover out_base files locs0 = Some st ∧
    locs = interface_locations st ∧
    fs1 = apply_writes (run_writes out_base st) fs0.
Proof.
  unfold main, write_all.
  destruct (discover out_base files locs0) as [st|]; [|split; [done|by intros (? & ? & _)]].
  assert (<[out_base ++ [TEMP_INDEX_FILENAME] :=
             index_text (index_lines (foldl (emit_interface out_base (interface_locations st))
               {| fs := fs0; index_lines := [] |} (all_interfaces st)))]>
            (fs (foldl (emit_interface out_base (interface_locations st))
               {| fs := fs0; index_lines := [] |} (all_interfaces st)))
          = apply_writes (run_writes out_base st) fs0) as ->.
  { unfold run_writes. by rewrite emit_loop_fs, emit_loop_index_lines, apply_writes_app. }
  split.
  - intros [= <- <-]. exists st. done.
  - intros (? & [= <-] & -> & ->). done.
Qed.

End WriteFacts.

(** ** Sorting *)

Section SortFacts.

Lemma sorted_spec (l : list string) :
  StronglySorted String.le (Py.sorted l) ∧ Py.sorted l ≡ₚ l.
Proof.
  split; [apply (StronglySorted_merge_sort String.le)|apply merge_sort_Permutation].
Qed.

(** [sorted(s)] of a set: ascending, without repetition, the same elements. *)
Lemma sorted_elements_spec (X : gset string) :
  StronglySorted String.le (Py.sorted (elements X)) ∧
  NoDup (Py.sorted (elements X)) ∧
  ∀ x, x ∈ Py.sorted (elements X) ↔ x ∈ X.
Proof.
  destruct (sorted_spec (elements X)) as [Hs Hp]. split_and!; [done| |].
  - rewrite Hp. apply NoDup_elements.
  - intros x. rewrite Hp. apply elem_of_elements.
Qed.

Lemma sorted_set_spec (l : list string) :
  StronglySorted String.le (Py.sorted (elements (list_to_set l : gset string))) ∧
  NoDup (Py.sorted (elements (list_to_set l : gset string))) ∧
  ∀ x, x ∈ Py.sorted (elements (list_to_set l : gset string)) ↔ x ∈ l.
Proof.
  destruct (sorted_elements_spec (list_to_set l)) as (? & ? & Hel).
  split_and!; [done..|]. intros x. by rewrite Hel, elem_of_list_to_set.
Qed.

End SortFacts.

(** ** Relative paths *)

Section PathFacts.

Lemma rel_list_under (b x : path) : OsPath.rel_list (b ++ x) b = x.
Proof.
  induction b as [|c b IH]; simpl.
  - by destruct x.
  - by rewrite decide_True.
Qed.

Lemma relpath_under (b x : path) :
  x ≠ [] → OsPath.relpath (b ++ x) b = Py.join OsPath.sep x.
Proof. unfold OsPath.relpath. rewrite rel_list_under. by destruct x. Qed.

Lemma replace_ts_name n :
  Py.has_char "." n = false → Py.replace_from ".ts" "" 0 (n +:+ ".ts") = n.
Proof.
  intros Hn. rewrite (replace_from_nochar "." "ts" "" n ".ts" Hn).
  change (Py.replace_from ".ts" "" 0 ".ts") with "". apply str_app_empty_r.
Qed.

(** The module an interface is re-exported from: its directories with
    every [.ts] dropped, then its name. *)
Lemma rel_module_out_path out_base parent n :
  Py.has_char "." n = false →
  rel_module (out_path_of out_base parent n) out_base
  = Py.join "/" ((Py.replace_from ".ts" "" 0 <$> parent) ++ [n]).
Proof.
  intros Hn. unfold rel_module, out_path_of.
  rewrite relpath_under by (by destruct parent).
  unfold Py.replace, OsPath.sep. rewrite replace_from_same.
  rewrite (replace_from_join "/" "." "ts" "") by done.
  by rewrite fmap_app, fmap_cons, fmap_nil, replace_ts_name.
Qed.

Lemma after_last_join l n :
  Py.has_char "/" n = false → Py.after_last "/" (Py.join "/" (l ++ [n])) = n.
Proof.
  intros Hn. rewrite join_snoc. destruct l as [|x l].
  - by apply after_last_none.
  - change ("/" +:+ n) with (String "/" n). by apply after_last_sep.
Qed.

Lemma export_line_inj r1 r2 : export_line r1 = export_line r2 → r1 = r2.
Proof.
  unfold export_line. intros H. apply (inj (String.app _)) in H.
  by apply str_app_inj_r in H.
Qed.

(** Interfaces of different names are re-exported by different lines. *)
Lemma index_line_name out_base parent1 parent2 n1 n2 f1 f2 :
  path_safe n1 → path_safe n2 →
  index_line out_base (n1, (f1, out_path_of out_base parent1 n1))
  = index_line out_base (n2, (f2, out_path_of out_base parent2 n2)) →
  n1 = n2.
Proof.
  intros [Hd1 Hs1] [Hd2 Hs2] H%export_line_inj. simpl in H.
  rewrite !rel_module_out_path in H by done.
  apply (f_equal (Py.after_last "/")) in H. by rewrite !after_last_join in H.
Qed.

Lemma out_path_of_name out_base parent1 parent2 n1 n2 :
  out_path_of out_base parent1 n1 = out_path_of out_base parent2 n2 → n1 = n2.
Proof.
  unfold out_path_of. rewrite !(assoc_L (++)). intros H.
  apply (f_equal last) in H. rewrite !last_snoc in H. simplify_eq.
  by eapply str_app_inj_r.
Qed.

Lemma derive_name_path_safe attr : path_safe attr → path_safe (derive_name attr).
Proof.
  unfold path_safe, derive_name, Py.replace. intros [Hd Hs]. split.
  - destruct (Py.has_char "." (Py.replace_from "Serializer" "" 0 attr)) eqn:H; [|done].
    apply has_char_replace_from in H. congruence.
  - destruct (Py.has_char "/" (Py.replace_from "Serializer" "" 0 attr)) eqn:H; [|done].
    apply has_char_replace_from in H. congruence.
Qed.

End PathFacts.

(** ** Entries of [all_interfaces] and their files *)

Section EntryFacts.
Variable out_base : path.
Implicit Types (st : discovery) (item : interface_entry).

Lemma entry_get D st n fields p :
  discovery_inv out_base D st →
  (n, (fields, p)) ∈ all_interfaces st ↔ Dict.get (all_interfaces st) n = Some (fields, p).
Proof.
  intros (Hnd & _). split; [by apply dict_elem_of_get|apply dict_get_Some_elem_of].
Qed.

Lemma entry_discovered D st n fields p :
  discovery_inv out_base D st → (n, (fields, p)) ∈ all_interfaces st →
  ∃ parent, D parent n fields ∧ p = out_path_of out_base parent n.
Proof.
  intros HI Hin. pose proof HI as (_ & Hsound & _).
  apply Hsound. by apply (entry_get D).
Qed.

Lemma entry_name_inj D st item1 item2 :
  discovery_inv out_base D st →
  item1 ∈ all_interfaces st → item2 ∈ all_interfaces st →
  item1.1 = item2.1 → item1 = item2.
Proof.
  intros HI. destruct item1 as [n1 [f1 p1]], item2 as [n2 [f2 p2]]. simpl.
  intros H1%(entry_get D) H2%(entry_get D) <-; [|done..]. congruence.
Qed.

(** Each entry of [all_interfaces] has a file of its own. *)
Lemma entry_paths_NoDup D st :
  discovery_inv out_base D st → NoDup ((λ item, item.2.2) <$> all_interfaces st).
Proof.
  intros HI. apply NoDup_fmap_2_strong.
  - intros [n1 [f1 p1]] [n2 [f2 p2]] H1 H2 Hp. simpl in Hp. subst p2.
    apply (entry_name_inj D st); [done..|]. simpl.
    destruct (entry_discovered D st _ _ _ HI H1) as (q1 & _ & E1).
    destruct (entry_discovered D st _ _ _ HI H2) as (q2 & _ & E2).
    rewrite E1 in E2. by apply out_path_of_name in E2.
  - destruct HI as (Hnd & _). by apply NoDup_fmap_1 in Hnd.
Qed.

Lemma entry_path_safe files st n fields p locs0 :
  names_path_safe files → discover out_base files locs0 = Some st →
  (n, (fields, p)) ∈ all_interfaces st → path_safe n.
Proof.
  intros Hsafe Hd Hin. apply discover_inv in Hd.
  destruct (entry_discovered _ _ _ _ _ Hd Hin)
    as (parent & (file & Hfile & _ & _ & members & attr & cls & Hm & Ha & _ & -> & _) & _).
  apply derive_name_path_safe. by eapply Hsafe.
Qed.

Lemma index_lines_NoDup files st locs0 :
  names_path_safe files → discover out_base files locs0 = Some st →
  NoDup (index_line out_base <$> all_interfaces st).
Proof.
  intros Hsafe Hd. pose proof (discover_inv _ _ _ _ Hd) as HI.
  apply NoDup_fmap_2_strong.
  - intros [n1 [f1 p1]] [n2 [f2 p2]] H1 H2 Hl.
    apply (entry_name_inj _ st _ _ HI); [done..|]. simpl.
    destruct (entry_discovered _ _ _ _ _ HI H1) as (q1 & _ & ->).
    destruct (entry_discovered _ _ _ _ _ HI H2) as (q2 & _ & ->).
    eapply index_line_name; [| |exact Hl]; by eapply entry_path_safe.
  - destruct HI as (Hnd & _). by apply NoDup_fmap_1 in Hnd.
Qed.

Lemma run_writes_index_last st m :
  apply_writes (run_writes out_base st) m !! index_path out_base
  = Some (index_text (index_line out_base <$> all_interfaces st)).
Proof.
  unfold run_writes. rewrite apply_writes_app. apply lookup_insert_eq.
Qed.

(** An interface file keeps the text [write_ts_interface] gave it, unless
    it is the index file itself. *)
Lemma run_writes_interface D st m item :
  discovery_inv out_base D st → item ∈ all_interfaces st →
  item.2.2 ≠ index_path out_base →
  apply_writes (run_writes out_base st) m !! item.2.2
  = Some (interface_text (interface_locations st) item).
Proof.
  intros HI Hin Hne. unfold run_writes. rewrite apply_writes_app.
  unfold apply_writes at 1. simpl. rewrite lookup_insert_ne by done.
  apply apply_writes_lookup.
  - rewrite <- list_fmap_compose. apply (entry_paths_NoDup D st HI).
  - apply list_elem_of_fmap. by exists item.
Qed.

End EntryFacts.

(** ** Imports and where they lead *)

Section ImportFacts.

Lemma import_writes_imported locs name deps dir :
  import_writes locs name deps dir
  = (λ dep, import_line dep (rel_module (default [] (locs !! dep)) dir))
      <$> imported_deps locs name deps.
Proof.
  unfold import_writes, imported_deps.
  induction (Py.sorted (elements deps)) as [|dep l IH]; [done|].
  rewrite filter_cons. cbn [omap list_omap].
  destruct (decide (dep = name)) as [->|Hne].
  - rewrite bool_decide_eq_true_2 by done. simpl.
    rewrite decide_False by (by intros [? _]). apply IH.
  - rewrite (bool_decide_eq_false_2 (dep = name)) by done. simpl.
    destruct (locs !! dep) as [p|] eqn:Hl.
    + rewrite bool_decide_eq_false_2 by done. simpl.
      rewrite decide_True by (split; [done|by eexists]).
      rewrite fmap_cons, Hl. simpl. by rewrite <- IH.
    + rewrite bool_decide_eq_true_2 by done.
      rewrite decide_False by (intros [_ [? ?]]; done). apply IH.
Qed.

Lemma StronglySorted_filter_keep {A} (R : relation A) (P : A → Prop)
    `{∀ x, Decision (P x)} (l : list A) :
  StronglySorted R l → StronglySorted R (filter P l).
Proof.
  induction 1 as [|x l Hs IH Hall]; [constructor|].
  rewrite filter_cons. case_decide; [|done]. constructor; [done|].
  apply Forall_forall. intros y [_ Hy]%list_elem_of_filter.
  rewrite Forall_forall in Hall. auto.
Qed.

Lemma imported_deps_spec locs name deps :
  StronglySorted String.le (imported_deps locs name deps) ∧
  NoDup (imported_deps locs name deps) ∧
  ∀ dep, dep ∈ imported_deps locs name deps ↔
    dep ∈ deps ∧ dep ≠ name ∧ is_Some (locs !! dep).
Proof.
  unfold imported_deps. destruct (sorted_elements_spec deps) as (Hs & Hnd & Hel).
  split_and!.
  - by apply StronglySorted_filter_keep.
  - by apply NoDup_filter.
  - intros dep. rewrite list_elem_of_filter, Hel. split; [by intros [[? ?] ?]|by intros (? & ? & ?)].
Qed.

Lemma deps_of_spec fields dep :
  dep ∈ deps_of fields ↔
  ∃ t, t ∈ Dict.values fields ∧ (t ∉ FIELD_TYPE_MAP_values) ∧ t ≠ "any" ∧
       dep = Py.replace "[]" "" t.
Proof.
  unfold deps_of. rewrite elem_of_list_to_set, list_elem_of_fmap. split.
  - intros (t & -> & (Hp & Hin)%list_elem_of_filter). exists t. by destruct Hp.
  - intros (t & Hin & H1 & H2 & ->). exists t. split; [done|].
    apply list_elem_of_filter. done.
Qed.





End ImportFacts.

(** ** Interface files *)

Section DeclarationFacts.

Lemma dict_key_absent {V} (d : list (string * V)) k :
  k ∉ Dict.keys d → filter (λ item, item.1 = k) d = [].
Proof.
  unfold Dict.keys. induction d as [|[k0 v0] d IH]; intros Hk; [done|].
  rewrite fmap_cons in Hk. apply not_elem_of_cons in Hk as [Hne Hk].
  rewrite filter_cons. cbn [fst]. rewrite decide_False by done. by apply IH.
Qed.

Lemma dict_key_once {V} (d : list (string * V)) k :
  NoDup (Dict.keys d) → k ∈ Dict.keys d →
  length (filter (λ item, item.1 = k) d) = 1.
Proof.
  unfold Dict.keys. induction d as [|[k0 v0] d IH]; intros Hnd Hin.
  - by apply elem_of_nil in Hin.
  - rewrite fmap_cons in Hnd, Hin. apply NoDup_cons in Hnd as [Hk0 Hnd].
    rewrite filter_cons. cbn [fst]. destruct (decide (k0 = k)) as [->|Hne].
    + by rewrite dict_key_absent.
    + apply elem_of_cons in Hin as [Heq|Hin]; [simpl in Heq; congruence|]. by apply IH.
Qed.

Lemma extract_keys_NoDup cls fields :
  extract_serializer_fields cls = Some fields → NoDup (Dict.keys fields).
Proof.
  intros He. destruct (cls_get_fields cls) as [items|] eqn:Hi.
  - destruct (extract_serializer_fields_spec cls items Hi) as (f' & He' & Hnd & _).
    congruence.
  - unfold extract_serializer_fields in He. by rewrite Hi in He.
Qed.

Lemma import_line_startswith dep rel :
  Py.startswith "import type " (import_line dep rel) = true.
Proof. reflexivity. Qed.

End DeclarationFacts.

(** ** The text of an interface file *)

Section FileShape.
Variable out_base : path.


(** The whole text of the file of an entry, with its import lines spelled
    out. *)
Lemma interface_file_shape files locs0 st n fields p :
  discover out_base files locs0 = Some st →
  (n, (fields, p)) ∈ all_interfaces st →
  interface_writes (interface_locations st) n fields (deps_of fields) (removelast p)
  = ((λ dep, "import type { " +:+ dep +:+ " } from './"
             +:+ Py.replace "/" "/"
                   (Py.replace ".ts" ""
                      (OsPath.relpath (default [] (interface_locations st !! dep))
                         (removelast p)))
             +:+ "';" +:+ Py.nl)
       <$> imported_deps (interface_locations st) n (deps_of fields))
    ++ (if bool_decide (deps_of fields = ∅) then [] else [Py.nl])
    ++ ["export interface " +:+ n +:+ " {" +:+ Py.nl]
    ++ ((λ item, "  " +:+ item.1 +:+ "?: " +:+ item.2 +:+ ";" +:+ Py.nl) <$> fields)
    ++ ["}" +:+ Py.nl] ∧
  ∀ fs0, p ≠ index_path out_base →
    apply_writes (run_writes out_base st) fs0 !! p
    = Some (String.concat ""
        (interface_writes (interface_locations st) n fields (deps_of fields)
           (removelast p))).
Proof.
  intros Hd Hin. split.
  - unfold interface_writes. by rewrite import_writes_imported.
  - intros fs0 Hne. pose proof (discover_inv _ _ _ _ Hd) as HI.
    apply (run_writes_interface out_base _ st fs0 (n, (fields, p)) HI Hin Hne).
Qed.

End FileShape.

(** * The claims *)

Example books_run : main ["out"] [books_py] ∅ ∅ = Some (books_locs, books_fs).
Proof. compute_done. Qed.

(** ** Field types and the loader *)

Section FieldClaims.

Lemma extract_get cls items k field :
  cls_get_fields cls = Some items → NoDup items.*1 → (k, field) ∈ items →
  ∃ fields, extract_serializer_fields cls = Some fields ∧
    Dict.get fields k = Some (field_ts_type field).
Proof.
  intros Hi Hnd Hin. eexists. split; [by apply extract_serializer_fields_NoDup|].
  apply dict_elem_of_get.
  - unfold Dict.keys. by rewrite <- list_fmap_compose.
  - apply list_elem_of_fmap. by exists (k, field).
Qed.

(** C2: a list serializer with a child is typed by the child's derived name
    followed by [[]], any other serializer instance by its own derived
    name. *)
Theorem nested_field_type cls items k field :
  cls_get_fields cls = Some items → NoDup items.*1 → (k, field) ∈ items →
  ∃ fields, extract_serializer_fields cls = Some fields ∧
    (∀ child, is_ListSerializer field = true → child_class_name field = Some child →
       Dict.get fields k = Some (derive_name child +:+ "[]")) ∧
    (¬ (is_ListSerializer field = true ∧ is_Some (child_class_name field)) →
     is_BaseSerializer field = true →
       Dict.get fields k = Some (derive_name (field_class_name field))).
Proof.
  intros Hi Hnd Hin. destruct (extract_get _ _ _ _ Hi Hnd Hin) as (fields & He & Hg).
  exists fields. split; [done|]. rewrite Hg. unfold field_ts_type. split.
  - intros child -> ->. done.
  - intros Hno Hb. rewrite Hb.
    destruct (is_ListSerializer field); [|done].
    destruct (child_class_name field); [|done]. destruct Hno. by split.
Qed.

(** C3: a field that is no serializer and whose class is in the table gets
    the table's entry. *)
Theorem table_field_type cls items k field t :
  cls_get_fields cls = Some items → NoDup items.*1 → (k, field) ∈ items →
  is_BaseSerializer field = false →
  FIELD_TYPE_MAP !! field_class_name field = Some t →
  (∃ fields, extract_serializer_fields cls = Some fields ∧ Dict.get fields k = Some t) ∧
  FIELD_TYPE_MAP !! "CharField" = Some "string" ∧
  FIELD_TYPE_MAP !! "TextField" = Some "string" ∧
  FIELD_TYPE_MAP !! "IntegerField" = Some "number" ∧
  FIELD_TYPE_MAP !! "DictField" = Some "Record<string, any>".
Proof.
  intros Hi Hnd Hin Hb Ht. split; [|by vm_compute].
  destruct (extract_get _ _ _ _ Hi Hnd Hin) as (fields & He & Hg).
  exists fields. split; [done|]. rewrite Hg. unfold field_ts_type.
  destruct field as [cn child|cn|cn]; [discriminate Hb..|].
  cbn [field_class_name] in Ht. cbn [is_ListSerializer is_BaseSerializer field_class_name].
  by rewrite Ht.
Qed.

End FieldClaims.

Lemma nested_field_type_witness :
  (∃ fields, extract_serializer_fields PostSerializer = Some fields ∧
     Dict.get fields "tags" = Some "Tag[]") ∧
  (∃ fields, extract_serializer_fields PostSerializer = Some fields ∧
     Dict.get fields "author" = Some "Author").
Proof.
  split.
  - destruct (nested_field_type PostSerializer
      [("id", FieldObj "IntegerField");
       ("tags", ListSerializerObj "ListSerializer" (Some "TagSerializer"));
       ("author", SerializerObj "AuthorSerializer");
       ("meta", FieldObj "DictField");
       ("rating", FieldObj "StarRatingField")]
      "tags" (ListSerializerObj "ListSerializer" (Some "TagSerializer")))
      as (fields & He & Hlist & _).
    + reflexivity.
    + compute_done.
    + compute_done.
    + exists fields. split; [done|]. apply (Hlist "TagSerializer"); reflexivity.
  - destruct (nested_field_type PostSerializer
      [("id", FieldObj "IntegerField");
       ("tags", ListSerializerObj "ListSerializer" (Some "TagSerializer"));
       ("author", SerializerObj "AuthorSerializer");
       ("meta", FieldObj "DictField");
       ("rating", FieldObj "StarRatingField")]
      "author" (SerializerObj "AuthorSerializer"))
      as (fields & He & _ & Hself).
    + reflexivity.
    + compute_done.
    + compute_done.
    + exists fields. split; [done|]. apply Hself; [|reflexivity]. by intros [? _].
Defined.

Lemma table_field_type_witness :
  (∃ fields, extract_serializer_fields PostSerializer = Some fields ∧
     Dict.get fields "meta" = Some "Record<string, any>") ∧
  FIELD_TYPE_MAP !! "CharField" = Some "string" ∧
  FIELD_TYPE_MAP !! "TextField" = Some "string" ∧
  FIELD_TYPE_MAP !! "IntegerField" = Some "number" ∧
  FIELD_TYPE_MAP !! "DictField" = Some "Record<string, any>".
Proof.
  apply (table_field_type PostSerializer
    [("id", FieldObj "IntegerField");
     ("tags", ListSerializerObj "ListSerializer" (Some "TagSerializer"));
     ("author", SerializerObj "AuthorSerializer");
     ("meta", FieldObj "DictField");
     ("rating", FieldObj "StarRatingField")]
    "meta" (FieldObj "DictField")).
  - reflexivity.
  - compute_done.
  - compute_done.
  - reflexivity.
  - compute_done.
Defined.

Section UnknownKind.
Variable out_base : path.


End UnknownKind.


Example posts_run_completes : is_Some (main ["out"] [books_py; init_py; posts_py] ∅ ∅).
Proof. compute_done. Qed.

Section Loader.
Variable out_base : path.

(** C6: the pairs are those of the classes of the module that derive from
    the base serializer and are defined in the module scanned; a file whose
    name starts with two underscores is passed over unread. *)
Theorem loader_pairs file :
  (∀ members module_path, sf_members file = Some members →
     ∃ found, find_serializer_classes file module_path = Some found ∧
       ∀ cls, (∃ n, (n, cls) ∈ found) ↔
         (∃ attr, (attr, ClassObj cls) ∈ members) ∧
         cls_is_serializer cls = true ∧ cls_module cls = module_path) ∧
  (∀ st, Py.startswith "__" (sf_name file) = true → scan_file out_base st file = Some st) ∧
  (∀ files locs0,
     discover out_base files locs0
     = discover out_base
         (filter (λ f, Py.startswith "__" (sf_name f) = false) files) locs0).
Proof.
  split_and!.
  - intros members module_path Hm.
    destruct (find_serializer_classes file module_path) as [found|] eqn:Hf.
    + exists found. split; [done|]. intros cls. split.
      * intros (n & (m' & attr & Hm' & Hin & Hq & _)%(find_serializer_classes_elem _ _ _ _ _ Hf)).
        rewrite Hm in Hm'. simplify_eq. unfold qualifies in Hq.
        apply andb_true_iff in Hq as [? ?%bool_decide_eq_true]. eauto.
      * intros ((attr & Hin) & Hs & Hmod). exists (derive_name attr).
        apply (find_serializer_classes_elem _ _ _ _ _ Hf). exists members, attr.
        split_and!; [done..| |done]. unfold qualifies. rewrite Hs. simpl.
        by apply bool_decide_eq_true.
    + unfold find_serializer_classes in Hf. by rewrite Hm in Hf.
  - intros st Hd. unfold scan_file. by rewrite Hd.
  - intros files locs0. unfold discover.
    generalize ({| interface_locations := locs0; all_interfaces := [] |}).
    induction files as [|f files IH]; intros st; [done|].
    rewrite filter_cons. destruct (Py.startswith "__" (sf_name f)) eqn:Hd.
    + rewrite decide_False by done. cbn [for_each].
      assert (scan_file out_base st f = Some st) as ->
        by (unfold scan_file; by rewrite Hd).
      apply IH.
    + rewrite decide_True by done. cbn [for_each].
      destruct (scan_file out_base st f); simpl; [apply IH|done].
Qed.

End Loader.

Lemma loader_pairs_witness :
  (∃ found, find_serializer_classes posts_py (module_path_of posts_py) = Some found ∧
     ∀ cls, (∃ n, (n, cls) ∈ found) ↔
       (∃ attr, (attr, ClassObj cls) ∈
          [("AuthorSerializer", ClassObj AuthorSerializer);
           ("Post", ClassObj {| cls_name := "Post"; cls_module := "blog.models";
                                cls_is_serializer := false; cls_get_fields := None |});
           ("PostSerializer", ClassObj PostSerializer);
           ("TagSerializer", ClassObj TagSerializer);
           ("slugify", OtherObj)]) ∧
       cls_is_serializer cls = true ∧ cls_module cls = module_path_of posts_py) ∧
  scan_file ["out"] {| interface_locations := ∅; all_interfaces := [] |} init_py
  = Some {| interface_locations := ∅; all_interfaces := [] |}.
Proof.
  split.
  - apply (loader_pairs ["out"] posts_py). reflexivity.
  - apply (loader_pairs ["out"] init_py). reflexivity.
Defined.

Example posts_found :
  find_serializer_classes posts_py (module_path_of posts_py)
  = Some [("Post", PostSerializer); ("Tag", TagSerializer)].
Proof. reflexivity. Qed.

(** ** Index file *)

Section IndexFile.
Variable out_base : path.

(** C5: the index file is the warning comment, then the re-export lines of
    the generated interface files, ascending and without repetition; with
    class names that are identifiers, one line per file. *)
Theorem index_file_reexports files locs0 fs0 locs fs1 :
  main out_base files locs0 fs0 = Some (locs, fs1) →
  ∃ st lines,
    discover out_base files locs0 = Some st ∧
    NoDup ((λ item, item.2.2) <$> all_interfaces st) ∧
    fs1 !! index_path out_base
      = Some (INDEX_HEADER +:+ (Py.join Py.nl lines +:+ Py.nl)) ∧
    StronglySorted String.le lines ∧
    NoDup lines ∧
    (∀ line, line ∈ lines ↔
       ∃ item, item ∈ all_interfaces st ∧ line = index_line out_base item) ∧
    (names_path_safe files → length lines = length (all_interfaces st)).
Proof.
  intros (st & Hd & -> & ->)%main_Some.
  exists st, (Py.sorted (elements
    (list_to_set (index_line out_base <$> all_interfaces st) : gset string))).
  destruct (sorted_set_spec (index_line out_base <$> all_interfaces st))
    as (Hsorted & Hnd & Hel).
  split_and!; [done| |apply run_writes_index_last|done|done| |].
  - apply (entry_paths_NoDup out_base (discovers files) st), (discover_inv _ _ _ _ Hd).
  - intros line. rewrite Hel, list_elem_of_fmap. split; intros (item & ? & ?); by exists item.
  - intros Hsafe. rewrite <- (length_fmap (index_line out_base)).
    apply Permutation_length, NoDup_Permutation; [done| |done].
    by eapply index_lines_NoDup.
Qed.

End IndexFile.

Lemma index_file_reexports_witness :
  main ["out"] [books_py] ∅ ∅ = Some (books_locs, books_fs) ∧
  names_path_safe [books_py] ∧
  ∃ st lines,
    discover ["out"] [books_py] ∅ = Some st ∧
    NoDup ((λ item, item.2.2) <$> all_interfaces st) ∧
    books_fs !! index_path ["out"]
      = Some (INDEX_HEADER +:+ (Py.join Py.nl lines +:+ Py.nl)) ∧
    StronglySorted String.le lines ∧
    NoDup lines ∧
    (∀ line, line ∈ lines ↔
       ∃ item, item ∈ all_interfaces st ∧ line = index_line ["out"] item) ∧
    (names_path_safe [books_py] → length lines = length (all_interfaces st)).
Proof.
  split; [compute_done|]. split.
  - intros file members attr cls ->%list_elem_of_singleton [= <-] Hin.
    repeat (apply elem_of_cons in Hin as [Heq|Hin];
            [try discriminate Heq; injection Heq as -> _; by vm_compute|]).
    by apply elem_of_nil in Hin.
  - apply (index_file_reexports ["out"] [books_py] ∅ ∅ books_locs books_fs).
    compute_done.
Defined.

(** ** Idempotence *)

Section Idempotence.
Variable out_base : path.

(** C9: a second run on unchanged input, in a new process or in the same
    one, leaves every output file as the first run left it. *)
Theorem main_idempotent files locs0 fs0 locs1 fs1 :
  main out_base files locs0 fs0 = Some (locs1, fs1) →
  main out_base files locs0 fs1 = Some (locs1, fs1) ∧
  main out_base files locs1 fs1 = Some (locs1, fs1).
Proof.
  intros (st & Hd & -> & ->)%main_Some. split.
  - apply main_Some. exists st. by rewrite apply_writes_idemp.
  - destruct (discover_relocate out_base files locs0 st (interface_locations st) Hd)
      as (st' & Hd' & Hall).
    assert (st' = st) as ->.
    { pose proof (discover_locs _ _ _ _ Hd) as Hl.
      pose proof (discover_locs _ _ _ _ Hd') as Hl'.
      rewrite Hall, Hl, (assoc_L (∪)), (idemp_L (∪)), <- Hl in Hl'.
      destruct st, st'. simpl in *. by subst. }
    apply main_Some. exists st. by rewrite apply_writes_idemp.
Qed.

End Idempotence.

Lemma main_idempotent_witness :
  main ["out"] [books_py] ∅ ∅ = Some (books_locs, books_fs) ∧
  main ["out"] [books_py] ∅ books_fs = Some (books_locs, books_fs) ∧
  main ["out"] [books_py] books_locs books_fs = Some (books_locs, books_fs).
Proof.
  split; [compute_done|].
  apply (main_idempotent ["out"] [books_py] ∅ ∅). compute_done.
Defined.

(** ** Import lines *)

Example comments_run :
  (main ["out"] [comments_py] ∅ ∅ ≫= λ r, r.1 !! "string") = Some ["out"; "string.ts"] ∧
  (main ["out"] [comments_py] ∅ ∅ ≫= λ r, r.2 !! ["out"; "Comment.ts"]) = Some Comment_ts ∧
  (main ["out"] [comments_py] ∅ ∅ ≫= λ r, r.2 !! ["out"; "Owner.ts"]) = Some Owner_ts.
Proof. split_and!; compute_done. Qed.

Section ImportLines.
Variable out_base : path.


End ImportLines.



(** The dependency set leaves out what a field names by a table entry. *)
Lemma deps_of_table_typed fields n :
  (∀ t, t ∈ Dict.values fields → Py.replace "[]" "" t = n →
     t ∈ FIELD_TYPE_MAP_values ∨ t = "any") →
  n ∉ deps_of fields.
Proof.
  intros H (t & Hin & Hnt & Hna & ->)%deps_of_spec.
  destruct (H t Hin eq_refl); done.
Qed.

(** C10, as amended: a name that the fields of an interface give only by a
    type that is a table entry or [any] is no dependency of the interface,
    and no import line is written for it whatever locations are known. *)
Theorem table_typed_name_not_imported fields n :
  (∀ t, t ∈ Dict.values fields → Py.replace "[]" "" t = n →
     t ∈ FIELD_TYPE_MAP_values ∨ t = "any") →
  (n ∉ deps_of fields) ∧
  ∀ locs name current_dir,
    (n ∉ imported_deps locs name (deps_of fields)) ∧
    import_writes locs name (deps_of fields) current_dir
    = (λ dep, import_line dep (rel_module (default [] (locs !! dep)) current_dir))
        <$> imported_deps locs name (deps_of fields).
Proof.
  intros H%deps_of_table_typed. split; [done|]. intros locs name current_dir.
  split; [|apply import_writes_imported].
  intros (Hin & _)%imported_deps_spec. done.
Qed.

Lemma table_typed_name_not_imported_witness :
  ("string" ∉ deps_of [("owner", field_ts_type (SerializerObj "stringSerializer"))]) ∧
  ∀ locs name current_dir,
    ("string" ∉ imported_deps locs name
                  (deps_of [("owner", field_ts_type (SerializerObj "stringSerializer"))])) ∧
    import_writes locs name
      (deps_of [("owner", field_ts_type (SerializerObj "stringSerializer"))]) current_dir
    = (λ dep, import_line dep (rel_module (default [] (locs !! dep)) current_dir))
        <$> imported_deps locs name
              (deps_of [("owner", field_ts_type (SerializerObj "stringSerializer"))]).
Proof.
  apply (table_typed_name_not_imported
           [("owner", field_ts_type (SerializerObj "stringSerializer"))] "string").
  intros t ->%list_elem_of_singleton _. left. compute_done.
Defined.

(** C10 as stated fails: a list of serializers whose derived name is
    [string] has the type [string[]], which is not in the table, so
    [string] is a dependency and is imported. *)
Lemma list_of_table_named_imported :
  "string" ∈ FIELD_TYPE_MAP_values ∧
  derive_name "stringSerializer" = "string" ∧
  field_ts_type (ListSerializerObj "ListSerializer" (Some "stringSerializer")) = "string[]" ∧
  "string" ∈ deps_of [("owner", "string"); ("tags", "string[]")] ∧
  import_writes (<["string" := ["out"; "string.ts"]]> ∅) "Comment"
    (deps_of [("owner", "string"); ("tags", "string[]")]) ["out"]
  = ["import type { string } from './string';" +:+ Py.nl] ∧
  (main ["out"] [comments_py] ∅ ∅ ≫= λ r, r.1 !! "string") = Some ["out"; "string.ts"] ∧
  (main ["out"] [comments_py] ∅ ∅ ≫= λ r, r.2 !! ["out"; "Comment.ts"]) = Some Comment_ts.
Proof.
  split_and!; compute_done.
Qed.

(** ** Interface declarations and file names *)

Section Declaration.
Variable out_base : path.

(** C8: the declaration of an emitted file lists the fields of the mapping
    in order, one line each, every one optional and of its resolved type;
    a mapping holds each field name once. *)
Theorem interface_declaration files locs0 fs0 locs fs1 :
  main out_base files locs0 fs0 = Some (locs, fs1) →
  ∃ st, discover out_base files locs0 = Some st ∧
    ∀ n fields p, (n, (fields, p)) ∈ all_interfaces st →
      NoDup (Dict.keys fields) ∧
      (∀ k, k ∈ Dict.keys fields → length (filter (λ item, item.1 = k) fields) = 1) ∧
      ∃ head,
        interface_writes locs n fields (deps_of fields) (removelast p)
        = head
          ++ ["export interface " +:+ n +:+ " {" +:+ Py.nl]
          ++ ((λ item, "  " +:+ item.1 +:+ "?: " +:+ item.2 +:+ ";" +:+ Py.nl) <$> fields)
          ++ ["}" +:+ Py.nl] ∧
        (∀ chunk, chunk ∈ head →
           Py.startswith "import type " chunk = true ∨ chunk = Py.nl) ∧
        (p ≠ index_path out_base →
         fs1 !! p = Some (String.concat ""
           (interface_writes locs n fields (deps_of fields) (removelast p)))).
Proof.
  intros (st & Hd & -> & ->)%main_Some. exists st. split; [done|].
  intros n fields p Hin. pose proof (discover_inv _ _ _ _ Hd) as HI.
  destruct (entry_discovered _ _ _ _ _ _ HI Hin)
    as (parent & (file & _ & _ & _ & members & attr & cls & _ & _ & _ & _ & He) & _).
  pose proof (extract_keys_NoDup _ _ He) as Hnd.
  split_and!; [done|intros k; by apply dict_key_once|].
  exists (import_writes (interface_locations st) n (deps_of fields) (removelast p)
          ++ (if bool_decide (deps_of fields = ∅) then [] else [Py.nl])).
  split_and!.
  - unfold interface_writes. by rewrite <- !(assoc_L (++)).
  - intros chunk [Hc|Hc]%elem_of_app.
    + left. rewrite import_writes_imported in Hc.
      apply list_elem_of_fmap in Hc as (dep & -> & _). apply import_line_startswith.
    + right. case_bool_decide; [by apply elem_of_nil in Hc|].
      by apply list_elem_of_singleton in Hc.
  - intros Hne.
    apply (run_writes_interface out_base _ st fs0 (n, (fields, p)) HI Hin Hne).
Qed.

End Declaration.

Lemma interface_declaration_witness :
  ∃ st, discover ["out"] [books_py] ∅ = Some st ∧
    ∀ n fields p, (n, (fields, p)) ∈ all_interfaces st →
      NoDup (Dict.keys fields) ∧
      (∀ k, k ∈ Dict.keys fields → length (filter (λ item, item.1 = k) fields) = 1) ∧
      ∃ head,
        interface_writes books_locs n fields (deps_of fields) (removelast p)
        = head
          ++ ["export interface " +:+ n +:+ " {" +:+ Py.nl]
          ++ ((λ item, "  " +:+ item.1 +:+ "?: " +:+ item.2 +:+ ";" +:+ Py.nl) <$> fields)
          ++ ["}" +:+ Py.nl] ∧
        (∀ chunk, chunk ∈ head →
           Py.startswith "import type " chunk = true ∨ chunk = Py.nl) ∧
        (p ≠ index_path ["out"] →
         books_fs !! p = Some (String.concat ""
           (interface_writes books_locs n fields (deps_of fields) (removelast p)))).
Proof.
  apply (interface_declaration ["out"] [books_py] ∅ ∅ books_locs books_fs).
  compute_done.
Defined.

Section OneFilePerName.
Variable out_base : path.

(** C1, as amended: the interface name of a discovered class, which names
    its file and its export, is the name the class is bound to in its
    module without every [Serializer] in it; the type of a nested field is
    the own name of the field's class, or of its child's, without every
    [Serializer] in it; either is the name without its suffix when
    [Serializer] occurs only there.  Each interface name has one entry, that
    of the class registered last under it, one file named after it and one
    export of that name, unless the index file has the same path; the run
    writes these files and the index file and nothing else. *)
Theorem one_file_per_derived_name files locs0 fs0 locs fs1 :
  main out_base files locs0 fs0 = Some (locs, fs1) →
  ∃ st, discover out_base files locs0 = Some st ∧
    NoDup (Dict.keys (all_interfaces st)) ∧
    NoDup ((λ item, item.2.2) <$> all_interfaces st) ∧
    (∀ n, n ∈ Dict.keys (all_interfaces st) ↔
       ∃ parent fields, discovers files parent n fields) ∧
    (∀ n fields p, (n, (fields, p)) ∈ all_interfaces st →
       (∃ parent, discovers files parent n fields ∧
          p = out_base ++ parent ++ [n +:+ ".ts"]) ∧
       (∃ file members attr cls items,
          file ∈ files ∧ sf_members file = Some members ∧
          (attr, ClassObj cls) ∈ members ∧
          n = Py.replace "Serializer" "" attr ∧
          p = out_base ++ sf_parent file ++ [Py.replace "Serializer" "" attr +:+ ".ts"] ∧
          cls_get_fields cls = Some items ∧
          ∀ k t, (k, t) ∈ fields → ∃ field, (k, field) ∈ items ∧ t = field_ts_type field) ∧
       locs !! n = Some p ∧
       "export interface " +:+ n +:+ " {" +:+ Py.nl
         ∈ interface_writes locs n fields (deps_of fields) (removelast p) ∧
       (p ≠ index_path out_base →
        fs1 !! p = Some (String.concat ""
          (interface_writes locs n fields (deps_of fields) (removelast p))))) ∧
    (∀ cn child,
       field_ts_type (ListSerializerObj cn (Some child))
       = Py.replace "Serializer" "" child +:+ "[]") ∧
    (∀ cn,
       field_ts_type (SerializerObj cn) = Py.replace "Serializer" "" cn ∧
       field_ts_type (ListSerializerObj cn None) = Py.replace "Serializer" "" cn) ∧
    (∀ files1 file files2 found1 n cls found2,
       files = files1 ++ file :: files2 →
       Py.startswith "__" (sf_name file) = false →
       find_serializer_classes file (module_path_of file)
         = Some (found1 ++ (n, cls) :: found2) →
       (n ∉ found2.*1) →
       (∀ f parent fields, f ∈ files2 → ¬ discovers_in f parent n fields) →
       ∃ fields, extract_serializer_fields cls = Some fields ∧
         (n, (fields, out_base ++ sf_parent file ++ [n +:+ ".ts"])) ∈ all_interfaces st) ∧
    (∀ q, (q ∉ (λ item, item.2.2) <$> all_interfaces st) → q ≠ index_path out_base →
       fs1 !! q = fs0 !! q) ∧
    (∀ base, Py.occurs "Serializer" base = false →
       derive_name (base +:+ "Serializer") = base ∧ derive_name base = base).
Proof.
  intros (st & Hd & -> & ->)%main_Some. exists st.
  pose proof (discover_inv _ _ _ _ Hd) as HI. pose proof HI as (Hnd & Hsound & Hcompl).
  split_and!; [done|done|by apply (entry_paths_NoDup out_base (discovers files))
              | | |done|done| | |].
  - intros n. split.
    + intros ([fields p] & Hg)%dict_elem_of_keys.
      destruct (Hsound _ _ _ Hg) as (parent & ? & _). eauto.
    + intros (parent & fields & HD). by eapply Hcompl.
  - intros n fields p Hin.
    pose proof (entry_discovered _ _ _ _ _ _ HI Hin) as (parent & HD & Hp).
    split_and!.
    + exists parent. done.
    + destruct HD as (file & Hfile & _ & -> & members & attr & cls & Hm & Hattr & _ & -> & He).
      assert (is_Some (cls_get_fields cls)) as [items Hi].
      { apply extract_serializer_fields_is_Some. by eexists. }
      destruct (extract_serializer_fields_spec _ _ Hi) as (fields' & He' & _ & _ & Hty).
      rewrite He in He'. injection He' as <-.
      exists file, members, attr, cls, items. split_and!; done.
    + rewrite (discover_locs _ _ _ _ Hd), lookup_union, loc_map_lookup.
      apply (entry_get out_base _ _ _ _ _ HI) in Hin. rewrite Hin. simpl.
      by destruct (locs0 !! n).
    + unfold interface_writes. rewrite !elem_of_app. right. right. left.
      by apply list_elem_of_singleton.
    + intros Hne.
      apply (run_writes_interface out_base _ st fs0 (n, (fields, p)) HI Hin Hne).
  - intros files1 file files2 found1 n cls found2 -> Hu Hf Hn2 Hlater.
    destruct (registered_last out_base _ _ _ _ _ _ _ _ _ Hd Hu Hf Hn2 Hlater)
      as (fields & He & Hg).
    exists fields. split; [done|]. by apply dict_get_Some_elem_of in Hg.
  - intros q Hq Hne. unfold run_writes. rewrite apply_writes_app.
    unfold apply_writes at 1. cbn [foldl fst snd]. rewrite lookup_insert_ne by done.
    apply apply_writes_lookup_ne. by rewrite <- list_fmap_compose.
  - intros base Hb. split; [by apply derive_name_suffix_only|].
    by apply replace_occurs_false.
Qed.

End OneFilePerName.

Lemma one_file_per_derived_name_witness :
  ∃ st, discover ["out"] [books_py] ∅ = Some st ∧
    NoDup (Dict.keys (all_interfaces st)) ∧
    NoDup ((λ item, item.2.2) <$> all_interfaces st) ∧
    (∀ n, n ∈ Dict.keys (all_interfaces st) ↔
       ∃ parent fields, discovers [books_py] parent n fields) ∧
    (∀ n fields p, (n, (fields, p)) ∈ all_interfaces st →
       (∃ parent, discovers [books_py] parent n fields ∧
          p = ["out"] ++ parent ++ [n +:+ ".ts"]) ∧
       (∃ file members attr cls items,
          file ∈ [books_py] ∧ sf_members file = Some members ∧
          (attr, ClassObj cls) ∈ members ∧
          n = Py.replace "Serializer" "" attr ∧
          p = ["out"] ++ sf_parent file ++ [Py.replace "Serializer" "" attr +:+ ".ts"] ∧
          cls_get_fields cls = Some items ∧
          ∀ k t, (k, t) ∈ fields → ∃ field, (k, field) ∈ items ∧ t = field_ts_type field) ∧
       books_locs !! n = Some p ∧
       "export interface " +:+ n +:+ " {" +:+ Py.nl
         ∈ interface_writes books_locs n fields (deps_of fields) (removelast p) ∧
       (p ≠ index_path ["out"] →
        books_fs !! p = Some (String.concat ""
          (interface_writes books_locs n fields (deps_of fields) (removelast p))))) ∧
    (∀ cn child,
       field_ts_type (ListSerializerObj cn (Some child))
       = Py.replace "Serializer" "" child +:+ "[]") ∧
    (∀ cn,
       field_ts_type (SerializerObj cn) = Py.replace "Serializer" "" cn ∧
       field_ts_type (ListSerializerObj cn None) = Py.replace "Serializer" "" cn) ∧
    (∀ files1 file files2 found1 n cls found2,
       [books_py] = files1 ++ file :: files2 →
       Py.startswith "__" (sf_name file) = false →
       find_serializer_classes file (module_path_of file)
         = Some (found1 ++ (n, cls) :: found2) →
       (n ∉ found2.*1) →
       (∀ f parent fields, f ∈ files2 → ¬ discovers_in f parent n fields) →
       ∃ fields, extract_serializer_fields cls = Some fields ∧
         (n, (fields, ["out"] ++ sf_parent file ++ [n +:+ ".ts"])) ∈ all_interfaces st) ∧
    (∀ q, (q ∉ (λ item, item.2.2) <$> all_interfaces st) → q ≠ index_path ["out"] →
       books_fs !! q = (∅ : gmap path string) !! q) ∧
    (∀ base, Py.occurs "Serializer" base = false →
       derive_name (base +:+ "Serializer") = base ∧ derive_name base = base).
Proof.
  apply (one_file_per_derived_name ["out"] [books_py] ∅ ∅ books_locs books_fs).
  compute_done.
Defined.

(** C1 as stated fails: two qualifying classes of the same name in two
    directories leave one interface file, that of the second; a class bound
    to another name than its own gets its file and its export from the
    bound name while a field of that class is typed from the class's own
    name; a top-level class that derives [tempindex] leaves no interface
    file, the index taking its place; and a name that holds [Serializer]
    twice loses both, not the suffix alone. *)
Lemma same_name_shares_one_file :
  find_serializer_classes users_v1_py (module_path_of users_v1_py)
    = Some [("User", UserSerializer_v1)] ∧
  find_serializer_classes users_v2_py (module_path_of users_v2_py)
    = Some [("User", UserSerializer_v2)] ∧
  (main ["out"] [users_v1_py; users_v2_py] ∅ ∅ ≫= λ r, Some (dom r.2))
    = Some ({[ ["out"; "v2"; "User.ts"]; ["out"; "tempindex.ts"] ]} : gset path) ∧
  (main ["out"] [users_v1_py; users_v2_py] ∅ ∅ ≫= λ r, Some (r.2 !! ["out"; "v1"; "User.ts"]))
    = Some None ∧
  cls_name FooSerializer = "FooSerializer" ∧
  find_serializer_classes aliases_py (module_path_of aliases_py)
    = Some [("Alias", FooSerializer); ("Bar", BarSerializer)] ∧
  (main ["out"] [aliases_py] ∅ ∅ ≫= λ r, Some (dom r.2))
    = Some ({[ ["out"; "Alias.ts"]; ["out"; "Bar.ts"]; ["out"; "tempindex.ts"] ]}
             : gset path) ∧
  (main ["out"] [aliases_py] ∅ ∅ ≫= λ r, r.2 !! ["out"; "Alias.ts"]) = Some Alias_ts ∧
  (main ["out"] [aliases_py] ∅ ∅ ≫= λ r, r.2 !! ["out"; "Bar.ts"]) = Some Bar_ts ∧
  find_serializer_classes misc_py (module_path_of misc_py)
    = Some [("tempindex", tempindexSerializer)] ∧
  (main ["out"] [misc_py] ∅ ∅ ≫= λ r, Some (dom r.2))
    = Some ({[ ["out"; "tempindex.ts"] ]} : gset path) ∧
  (main ["out"] [misc_py] ∅ ∅ ≫= λ r, r.2 !! ["out"; "tempindex.ts"])
    = Some (INDEX_HEADER +:+ "export * from './tempindex';" +:+ Py.nl) ∧
  derive_name "SerializerMethodSerializer" = "Method" ∧
  removesuffix "Serializer" "SerializerMethodSerializer" = "SerializerMethod" ∧
  field_ts_type (SerializerObj "SerializerMethodSerializer") = "Method".
Proof.
  split_and!; compute_done.
Qed.

(** * Further properties of the code *)

(** ** The writer at its edges *)

Section WriterEdges.

Lemma filter_none {A} (P : A → Prop) `{∀ x, Decision (P x)} (l : list A) :
  (∀ x, x ∈ l → ¬ P x) → filter P l = [].
Proof.
  induction l as [|x l IH]; intros Hl; [done|].
  rewrite filter_cons, decide_False by (apply Hl; left).
  apply IH. intros y Hy. apply Hl. by right.
Qed.

Lemma table_value_elem cn v : FIELD_TYPE_MAP !! cn = Some v → v ∈ FIELD_TYPE_MAP_values.
Proof.
  intros H. unfold FIELD_TYPE_MAP_values. apply list_elem_of_fmap.
  exists (cn, v). split; [done|]. by apply elem_of_map_to_list.
Qed.

Lemma import_writes_no_deps locs name dir : import_writes locs name ∅ dir = [].
Proof. unfold import_writes. by rewrite elements_empty. Qed.

(** X1: when [deps] is not empty but every dependency is the interface
    itself or has no known location, the file starts with an empty line and
    holds no import. *)
Theorem blank_line_without_imports (locs : gmap string path) (name : string)
    (fields : list (string * string)) (deps : gset string) (current_dir : path) :
  deps ≠ ∅ →
  (∀ dep, dep ∈ deps → dep = name ∨ locs !! dep = None) →
  interface_writes locs name fields deps current_dir
  = Py.nl :: ("export interface " +:+ name +:+ " {" +:+ Py.nl)
      :: (field_line <$> fields) ++ ["}" +:+ Py.nl].
Proof.
  intros Hne Hskip. unfold interface_writes.
  rewrite import_writes_imported. unfold imported_deps.
  rewrite filter_none.
  - by rewrite bool_decide_eq_false_2.
  - intros dep Hin [Hn [p Hp]]. apply sorted_elements_spec in Hin.
    destruct (Hskip dep Hin); congruence.
Qed.

(** X2: a serializer whose fields are all plain fields has no dependency:
    its file is the declaration alone, without import or empty line. *)
Theorem plain_fields_declaration_only cls items :
  cls_get_fields cls = Some items →
  (∀ k field, (k, field) ∈ items → is_BaseSerializer field = false) →
  ∃ fields, extract_serializer_fields cls = Some fields ∧
    deps_of fields = ∅ ∧
    ∀ locs name current_dir,
      interface_writes locs name fields (deps_of fields) current_dir
      = ("export interface " +:+ name +:+ " {" +:+ Py.nl)
          :: (field_line <$> fields) ++ ["}" +:+ Py.nl].
Proof.
  intros Hi Hplain.
  destruct (extract_serializer_fields_spec cls items Hi) as (fields & He & _ & _ & Hty).
  exists fields. split; [done|].
  assert (deps_of fields = ∅) as Hdeps.
  { apply elem_of_equiv_empty_L. intros dep (t & Hin & Hnt & Hna & _)%deps_of_spec.
    apply list_elem_of_fmap in Hin as ([k t'] & -> & Hin). cbn [snd] in *.
    destruct (Hty _ _ Hin) as (field & Hf & ->).
    specialize (Hplain _ _ Hf). destruct field as [cn c|cn|cn]; [done..|].
    unfold field_ts_type in *. cbn [is_ListSerializer is_BaseSerializer field_class_name] in *.
    destruct (FIELD_TYPE_MAP !! cn) as [v|] eqn:Hv; cbn [from_option id] in Hnt, Hna;
      [|done].
    apply Hnt. by eapply table_value_elem. }
  split; [done|]. intros locs name current_dir. rewrite Hdeps.
  unfold interface_writes. rewrite import_writes_no_deps.
  by rewrite bool_decide_eq_true_2.
Qed.

(** X3: the mapping lists the fields in the order the serializer gives
    them, one entry per field, each with the type of its field. *)
Theorem field_order_kept cls items :
  cls_get_fields cls = Some items → NoDup items.*1 →
  ∃ fields, extract_serializer_fields cls = Some fields ∧
    Dict.keys fields = items.*1 ∧
    Dict.values fields = field_ts_type <$> items.*2.
Proof.
  intros Hi Hnd. eexists. split; [by apply extract_serializer_fields_NoDup|].
  unfold Dict.keys, Dict.values. by rewrite <- !list_fmap_compose.
Qed.

End WriterEdges.

Lemma blank_line_without_imports_witness :
  interface_writes (<["Node" := ["out"; "Node.ts"]]> ∅) "Node"
    [("label", "string"); ("children", "Node[]")]
    (deps_of [("label", "string"); ("children", "Node[]")]) ["out"]
  = Py.nl :: ("export interface " +:+ "Node" +:+ " {" +:+ Py.nl)
      :: (field_line <$> [("label", "string"); ("children", "Node[]")])
      ++ ["}" +:+ Py.nl].
Proof.
  apply (blank_line_without_imports (<["Node" := ["out"; "Node.ts"]]> ∅) "Node"
           [("label", "string"); ("children", "Node[]")]
           (deps_of [("label", "string"); ("children", "Node[]")]) ["out"]).
  - compute_done.
  - intros dep Hdep. left.
    assert (deps_of [("label", "string"); ("children", "Node[]")] = {["Node"]}) as Hd
      by compute_done.
    rewrite Hd in Hdep. by apply elem_of_singleton in Hdep.
Defined.

Lemma plain_fields_declaration_only_witness :
  ∃ fields, extract_serializer_fields AuthorSerializer = Some fields ∧
    deps_of fields = ∅ ∧
    ∀ locs name current_dir,
      interface_writes locs name fields (deps_of fields) current_dir
      = ("export interface " +:+ name +:+ " {" +:+ Py.nl)
          :: (field_line <$> fields) ++ ["}" +:+ Py.nl].
Proof.
  apply (plain_fields_declaration_only AuthorSerializer [("name", FieldObj "CharField")]).
  - reflexivity.
  - intros k field Hin%list_elem_of_singleton. injection Hin as _ ->. reflexivity.
Defined.

Lemma field_order_kept_witness :
  ∃ fields, extract_serializer_fields NodeSerializer = Some fields ∧
    Dict.keys fields = ["label"; "children"] ∧
    Dict.values fields
    = field_ts_type <$> [FieldObj "CharField";
                         ListSerializerObj "ListSerializer" (Some "NodeSerializer")].
Proof.
  apply (field_order_kept NodeSerializer
           [("label", FieldObj "CharField");
            ("children", ListSerializerObj "ListSerializer" (Some "NodeSerializer"))]).
  - reflexivity.
  - compute_done.
Defined.

(** ** Module names and specifiers *)

Section PathShapes.

Lemma rpartition_dot_py stem :
  OsPath.rpartition_dot (stem +:+ ".py") = Some (stem, "py").
Proof.
  induction stem as [|c stem IH]; [done|].
  rewrite str_app_cons. cbn [OsPath.rpartition_dot]. by rewrite IH.
Qed.

(** X4: a file [<stem>.py] in directory [parent] is loaded under the
    module name [api.serializers.<parent dotted>.<stem>], whatever dots the
    stem holds; only the name [.py] keeps its extension. *)
Theorem module_path_dotted parent stem members :
  stem ≠ "" →
  module_path_of {| sf_parent := parent; sf_name := stem +:+ ".py"; sf_members := members |}
  = Py.join "." ("api.serializers" :: parent ++ [stem]) ∧
  module_path_of {| sf_parent := parent; sf_name := ".py"; sf_members := members |}
  = Py.join "." ("api.serializers" :: parent ++ [".py"]).
Proof.
  intros Hstem. split; [|done]. unfold module_path_of, OsPath.with_suffix_empty.
  cbn [sf_parent sf_name]. rewrite rpartition_dot_py.
  destruct stem; [done|]. done.
Qed.

Lemma removelast_out_path out_base parent n :
  removelast (out_path_of out_base parent n) = out_base ++ parent.
Proof. unfold out_path_of. by rewrite (assoc_L (++)), removelast_last. Qed.

(** X5: an interface imports an interface of the same directory as
    [./<Name>]. *)
Theorem sibling_import_path out_base parent n m :
  Py.has_char "." m = false →
  rel_module (out_path_of out_base parent m)
    (removelast (out_path_of out_base parent n)) = m ∧
  import_line m (rel_module (out_path_of out_base parent m)
                   (removelast (out_path_of out_base parent n)))
  = "import type { " +:+ m +:+ " } from './" +:+ m +:+ "';" +:+ Py.nl.
Proof.
  intros Hm.
  assert (rel_module (out_path_of out_base parent m)
            (removelast (out_path_of out_base parent n)) = m) as ->; [|done].
  rewrite removelast_out_path.
  change (out_path_of out_base parent m) with (out_base ++ parent ++ [m +:+ ".ts"]).
  rewrite (assoc_L (++)).
  change ((out_base ++ parent) ++ [m +:+ ".ts"])
    with (out_path_of (out_base ++ parent) [] m).
  by rewrite rel_module_out_path.
Qed.

Lemma replace_ts_components (parent : path) :
  (∀ c, c ∈ parent → Py.occurs ".ts" c = false) →
  Py.replace_from ".ts" "" 0 <$> parent = parent.
Proof.
  induction parent as [|c parent IH]; intros H; [done|].
  rewrite fmap_cons, replace_occurs_false by (apply H; left).
  f_equal. apply IH. intros c' Hc'. apply H. by right.
Qed.

(** X6: the index re-exports an interface from its directories joined by
    [/] and its name, with every [.ts] inside a directory name dropped. *)
Theorem index_line_path out_base parent n fields :
  Py.has_char "." n = false →
  index_line out_base (n, (fields, out_path_of out_base parent n))
  = "export * from './"
      +:+ Py.join "/" ((Py.replace ".ts" "" <$> parent) ++ [n]) +:+ "';".
Proof.
  intros Hn. unfold index_line. cbn [fst snd]. by rewrite rel_module_out_path.
Qed.

(** X7: when no directory name holds [.ts], the index re-exports an
    interface from its path below the output root, without the
    extension. *)
Theorem index_line_true_path out_base parent n fields :
  Py.has_char "." n = false →
  (∀ c, c ∈ parent → Py.occurs ".ts" c = false) →
  index_line out_base (n, (fields, out_path_of out_base parent n))
  = "export * from './" +:+ Py.join "/" (parent ++ [n]) +:+ "';".
Proof.
  intros Hn Hp. unfold index_line. cbn [fst snd].
  by rewrite rel_module_out_path, replace_ts_components.
Qed.

End PathShapes.

Lemma module_path_dotted_witness :
  module_path_of {| sf_parent := ["blog"; "v2"]; sf_name := "post.list" +:+ ".py";
                    sf_members := None |}
  = Py.join "." ("api.serializers" :: ["blog"; "v2"] ++ ["post.list"]) ∧
  module_path_of {| sf_parent := ["blog"; "v2"]; sf_name := ".py"; sf_members := None |}
  = Py.join "." ("api.serializers" :: ["blog"; "v2"] ++ [".py"]).
Proof. apply (module_path_dotted ["blog"; "v2"] "post.list" None). done. Defined.

Lemma sibling_import_path_witness :
  rel_module (out_path_of ["srv"; "out"] ["blog"] "Tag")
    (removelast (out_path_of ["srv"; "out"] ["blog"] "Post")) = "Tag" ∧
  import_line "Tag" (rel_module (out_path_of ["srv"; "out"] ["blog"] "Tag")
                       (removelast (out_path_of ["srv"; "out"] ["blog"] "Post")))
  = "import type { " +:+ "Tag" +:+ " } from './" +:+ "Tag" +:+ "';" +:+ Py.nl.
Proof. apply (sibling_import_path ["srv"; "out"] ["blog"] "Post" "Tag"). reflexivity. Defined.

Lemma index_line_path_witness :
  index_line ["out"] ("Tag", ([], out_path_of ["out"] ["api.tsx"; "blog"] "Tag"))
  = "export * from './"
      +:+ Py.join "/" ((Py.replace ".ts" "" <$> ["api.tsx"; "blog"]) ++ ["Tag"]) +:+ "';".
Proof. apply (index_line_path ["out"] ["api.tsx"; "blog"] "Tag" []). reflexivity. Defined.

Lemma index_line_true_path_witness :
  index_line ["out"] ("Tag", ([], out_path_of ["out"] ["api"; "blog"] "Tag"))
  = "export * from './" +:+ Py.join "/" (["api"; "blog"] ++ ["Tag"]) +:+ "';".
Proof.
  apply (index_line_true_path ["out"] ["api"; "blog"] "Tag" []); [reflexivity|].
  intros c Hc. repeat (apply elem_of_cons in Hc as [->|Hc]; [reflexivity|]).
  by apply elem_of_nil in Hc.
Defined.

Example index_line_mangled :
  index_line ["out"] ("Tag", ([], out_path_of ["out"] ["api.tsx"; "blog"] "Tag"))
  = "export * from './apix/blog/Tag';".
Proof. reflexivity. Qed.

(** ** The run at its edges *)

Section RunEdges.
Variable out_base : path.

Lemma entry_location files locs0 st n fields p :
  discover out_base files locs0 = Some st →
  (n, (fields, p)) ∈ all_interfaces st → interface_locations st !! n = Some p.
Proof.
  intros Hd Hin. pose proof (discover_inv _ _ _ _ Hd) as HI.
  rewrite (discover_locs _ _ _ _ Hd), lookup_union, loc_map_lookup.
  apply (entry_get out_base _ _ _ _ _ HI) in Hin. rewrite Hin. simpl.
  by destruct (locs0 !! n).
Qed.

(** X8: the file of an interface that refers to another discovered
    interface holds, among its leading import lines, the line that imports
    it from that interface's file, whichever of the two was discovered
    first: files are written only after every location is known.  The file
    of a top-level interface named [tempindex] is excepted, since the index
    file replaces it. *)
Theorem discovered_dependency_imported files locs0 fs0 locs fs1 :
  main out_base files locs0 fs0 = Some (locs, fs1) →
  ∃ st, discover out_base files locs0 = Some st ∧
    ∀ n fields p m fields' q t,
      (n, (fields, p)) ∈ all_interfaces st →
      (m, (fields', q)) ∈ all_interfaces st →
      t ∈ Dict.values fields → (t ∉ FIELD_TYPE_MAP_values) → t ≠ "any" →
      Py.replace "[]" "" t = m → m ≠ n →
      p ≠ index_path out_base →
      ∃ pre post,
        (∀ chunk, chunk ∈ pre → Py.startswith "import type " chunk = true) ∧
        fs1 !! p = Some (String.concat ""
          (pre
           ++ ["import type { " +:+ m +:+ " } from './"
               +:+ Py.replace "/" "/"
                     (Py.replace ".ts" "" (OsPath.relpath q (removelast p)))
               +:+ "';" +:+ Py.nl]
           ++ post)).
Proof.
  intros (st & Hd & -> & ->)%main_Some. exists st. split; [done|].
  intros n fields p m fields' q t Hn Hm Ht Hnt Hna Hstrip Hne Hp.
  pose proof (entry_location _ _ _ _ _ _ Hd Hm) as Hq.
  destruct (interface_file_shape out_base _ _ _ _ _ _ Hd Hn) as [Hshape Hfile].
  assert (m ∈ imported_deps (interface_locations st) n (deps_of fields)) as Hin.
  { apply imported_deps_spec. split_and!; [|done|by eexists].
    apply deps_of_spec. by exists t. }
  apply list_elem_of_split in Hin as (l1 & l2 & Hsplit).
  rewrite Hsplit, fmap_app, fmap_cons, Hq in Hshape. cbn [default from_option id] in Hshape.
  eexists _, _. split; [|rewrite (Hfile fs0 Hp), Hshape, <- (assoc_L (++)); reflexivity].
  by intros chunk (dep & -> & _)%list_elem_of_fmap.
Qed.

Lemma discover_location_other files locs0 st n :
  discover out_base files locs0 = Some st →
  (∀ parent fields, ¬ discovers files parent n fields) →
  interface_locations st !! n = locs0 !! n.
Proof.
  intros Hd Hn. pose proof (discover_inv _ _ _ _ Hd) as (_ & Hsound & _).
  rewrite (discover_locs _ _ _ _ Hd), lookup_union, loc_map_lookup.
  destruct (Dict.get (all_interfaces st) n) as [[fields p]|] eqn:Hg.
  - destruct (Hsound _ _ _ Hg) as (parent & HD & _). by destruct (Hn parent fields).
  - simpl. by rewrite (left_id_L None _).
Qed.

(** X9: a name the run does not discover keeps the location the
    module-level dictionary held for it before the run. *)
Theorem undiscovered_location_kept files locs0 fs0 locs fs1 n :
  main out_base files locs0 fs0 = Some (locs, fs1) →
  (∀ parent fields, ¬ discovers files parent n fields) →
  locs !! n = locs0 !! n.
Proof.
  intros (st & Hd & -> & _)%main_Some Hn. by eapply discover_location_other.
Qed.

Lemma index_text_nil : index_text [] = INDEX_HEADER +:+ Py.nl.
Proof. unfold index_text. rewrite list_to_set_nil, elements_empty. reflexivity. Qed.

(** X10: when the scanned files load and none defines a qualifying class,
    as with no file at all, the run writes the index file alone, holding
    the warning comment and an empty line, and learns no location. *)
Theorem no_class_index_only files locs0 fs0 :
  (∀ file, file ∈ files → loads_cleanly file) →
  (∀ parent n fields, ¬ discovers files parent n fields) →
  main out_base files locs0 fs0
  = Some (locs0, <[index_path out_base := INDEX_HEADER +:+ Py.nl]> fs0).
Proof.
  intros Hload Hnone.
  destruct (proj2 (discover_is_Some out_base files locs0) Hload) as [st Hd].
  pose proof (discover_inv _ _ _ _ Hd) as (_ & Hsound & _).
  assert (all_interfaces st = []) as Hall.
  { destruct (all_interfaces st) as [|[n [fields p]] l] eqn:Hall; [done|].
    assert (Dict.get ((n, (fields, p)) :: l) n = Some (fields, p)) as Hg.
    { simpl. by rewrite decide_True. }
    destruct (Hsound n fields p Hg) as (parent & HD & _).
    by destruct (Hnone parent n fields). }
  pose proof (discover_locs _ _ _ _ Hd) as Hlocs. rewrite Hall in Hlocs.
  unfold loc_map in Hlocs. rewrite fmap_nil, list_to_map_nil, (left_id_L ∅ (∪)) in Hlocs.
  apply main_Some. exists st. split_and!; [done..|].
  unfold run_writes. rewrite Hall, !fmap_nil, index_text_nil. done.
Qed.

Lemma run_writes_paths D st q :
  discovery_inv out_base D st → q ∈ (run_writes out_base st).*1 → out_base `prefix_of` q.
Proof.
  intros HI. unfold run_writes. rewrite fmap_app, elem_of_app.
  intros [Hq|Hq].
  - apply list_elem_of_fmap in Hq as ([q' c] & -> & Hq).
    apply list_elem_of_fmap in Hq as ([n [fields p]] & [= -> ->] & Hin).
    destruct (entry_discovered _ _ _ _ _ _ HI Hin) as (parent & _ & ->).
    by eexists.
  - apply list_elem_of_singleton in Hq as ->. by eexists.
Qed.

(** X11: the files the run itself opens for writing are the files of the
    discovered interfaces, each at the output root followed by the
    directory of its module and its name, and the index file; all lie
    below the output root. *)
Theorem writes_stay_under_out_base files locs0 fs0 locs fs1 q :
  main out_base files locs0 fs0 = Some (locs, fs1) →
  fs1 !! q ≠ fs0 !! q →
  out_base `prefix_of` q ∧
  (q = out_base ++ [TEMP_INDEX_FILENAME] ∨
   ∃ file n fields,
     file ∈ files ∧ discovers_in file (sf_parent file) n fields ∧
     q = out_base ++ sf_parent file ++ [n +:+ ".ts"]).
Proof.
  intros (st & Hd & _ & ->)%main_Some Hq.
  pose proof (discover_inv _ _ _ _ Hd) as HI.
  destruct (decide (q ∈ (run_writes out_base st).*1)) as [Hin|Hout];
    [|by destruct Hq; apply apply_writes_lookup_ne].
  split; [by eapply run_writes_paths|].
  unfold run_writes in Hin. rewrite fmap_app, elem_of_app in Hin.
  destruct Hin as [Hin|Hin].
  - right. apply list_elem_of_fmap in Hin as ([q' c] & -> & Hin).
    apply list_elem_of_fmap in Hin as ([n [fields p]] & [= -> ->] & Hin).
    destruct (entry_discovered _ _ _ _ _ _ HI Hin)
      as (parent & (file & Hfile & HD) & ->).
    pose proof HD as (_ & -> & _). by exists file, n, fields.
  - left. by apply list_elem_of_singleton in Hin.
Qed.

Lemma concat_head c x l :
  String.concat "" (String c x :: l) = String c (x +:+ String.concat "" l).
Proof.
  destruct l as [|y l].
  - simpl. by rewrite str_app_empty_r.
  - reflexivity.
Qed.

Lemma interface_text_no_slash locs item : Py.startswith "/" (interface_text locs item) = false.
Proof.
  unfold interface_text, interface_writes. rewrite import_writes_imported.
  destruct (imported_deps locs item.1 (deps_of item.2.1)) as [|dep l].
  - rewrite fmap_nil, app_nil_l. case_bool_decide.
    + rewrite app_nil_l. cbn [app].
      change ("export interface " +:+ ?s) with (String "e" ("xport interface " +:+ s)).
      by rewrite concat_head.
    + cbn [app]. unfold Py.nl at 1. by rewrite concat_head.
  - rewrite fmap_cons. cbn [app]. unfold import_line.
    change ("import type { " +:+ ?s) with (String "i" ("mport type { " +:+ s)).
    by rewrite concat_head.
Qed.

(** X12: only an interface named [tempindex] at the top of the output
    tree shares its path with the index file, and then the index file
    replaces it. *)
Theorem index_replaces_tempindex files locs0 fs0 locs fs1 :
  main out_base files locs0 fs0 = Some (locs, fs1) →
  ∃ st, discover out_base files locs0 = Some st ∧
    ∀ n fields p, (n, (fields, p)) ∈ all_interfaces st → p = index_path out_base →
      n = "tempindex" ∧
      fs1 !! p = Some (index_text (index_line out_base <$> all_interfaces st)) ∧
      fs1 !! p ≠ Some (interface_text locs (n, (fields, p))).
Proof.
  intros (st & Hd & -> & ->)%main_Some. exists st. split; [done|].
  intros n fields p Hin ->. pose proof (discover_inv _ _ _ _ Hd) as HI.
  rewrite run_writes_index_last. split_and!; [|done|].
  - destruct (entry_discovered _ _ _ _ _ _ HI Hin) as (parent & _ & Hp).
    unfold index_path, out_path_of in Hp. apply app_inv_head in Hp.
    destruct parent as [|c [|c' parent]]; [|done|done].
    injection Hp as Hp. symmetry in Hp.
    change TEMP_INDEX_FILENAME with ("tempindex" +:+ ".ts") in Hp.
    by apply str_app_inj_r in Hp.
  - intros [= Heq]. pose proof (interface_text_no_slash (interface_locations st)
      (n, (fields, index_path out_base))) as Hs.
    by rewrite <- Heq in Hs.
Qed.

End RunEdges.

Lemma discovered_dependency_imported_witness :
  ∃ st, discover ["out"] [books_py] ∅ = Some st ∧
    ∀ n fields p m fields' q t,
      (n, (fields, p)) ∈ all_interfaces st →
      (m, (fields', q)) ∈ all_interfaces st →
      t ∈ Dict.values fields → (t ∉ FIELD_TYPE_MAP_values) → t ≠ "any" →
      Py.replace "[]" "" t = m → m ≠ n →
      p ≠ index_path ["out"] →
      ∃ pre post,
        (∀ chunk, chunk ∈ pre → Py.startswith "import type " chunk = true) ∧
        books_fs !! p = Some (String.concat ""
          (pre
           ++ ["import type { " +:+ m +:+ " } from './"
               +:+ Py.replace "/" "/"
                     (Py.replace ".ts" "" (OsPath.relpath q (removelast p)))
               +:+ "';" +:+ Py.nl]
           ++ post)).
Proof.
  apply (discovered_dependency_imported ["out"] [books_py] ∅ ∅ books_locs books_fs).
  compute_done.
Defined.

Lemma books_py_discovers parent n fields :
  discovers [books_py] parent n fields → n = "Author" ∨ n = "Book".
Proof.
  intros (file & ->%list_elem_of_singleton & _ & _ & members & attr & cls & [= <-] & Hin & _ & -> & _).
  repeat (apply elem_of_cons in Hin as [Heq|Hin];
          [try discriminate Heq; injection Heq as -> _; auto|]).
  by apply elem_of_nil in Hin.
Qed.

Lemma undiscovered_location_kept_witness :
  (<["Old" := ["out"; "legacy"; "Old.ts"]]> books_locs) !! "Old"
  = (<["Old" := ["out"; "legacy"; "Old.ts"]]> (∅ : gmap string path)) !! "Old".
Proof.
  apply (undiscovered_location_kept ["out"] [books_py]
           (<["Old" := ["out"; "legacy"; "Old.ts"]]> ∅) ∅
           (<["Old" := ["out"; "legacy"; "Old.ts"]]> books_locs) books_fs "Old").
  - compute_done.
  - intros parent fields [H|H]%books_py_discovers; discriminate H.
Defined.

Lemma no_class_index_only_witness :
  main ["out"] [helpers_py; init_py] ∅ ∅
  = Some (∅, <[index_path ["out"] := INDEX_HEADER +:+ Py.nl]> ∅).
Proof.
  apply (no_class_index_only ["out"] [helpers_py; init_py] ∅ ∅).
  - intros file [->|[->|Hin]%elem_of_cons]%elem_of_cons.
    + intros _. eexists. split; [reflexivity|]. intros attr cls Hin.
      apply list_elem_of_singleton in Hin. discriminate Hin.
    + intros Hd. discriminate Hd.
    + by apply elem_of_nil in Hin.
  - intros parent n fields (file & Hfile & Hd & _ & members & attr & cls & Hm & Hin & _).
    apply elem_of_cons in Hfile as [->|[->|Hfile]%elem_of_cons].
    + injection Hm as <-. apply list_elem_of_singleton in Hin. discriminate Hin.
    + discriminate Hd.
    + by apply elem_of_nil in Hfile.
Defined.

Lemma writes_stay_under_out_base_witness :
  ["out"] `prefix_of` ["out"; "Book.ts"] ∧
  (["out"; "Book.ts"] = ["out"] ++ [TEMP_INDEX_FILENAME] ∨
   ∃ file n fields,
     file ∈ [books_py] ∧ discovers_in file (sf_parent file) n fields ∧
     ["out"; "Book.ts"] = ["out"] ++ sf_parent file ++ [n +:+ ".ts"]).
Proof.
  apply (writes_stay_under_out_base ["out"] [books_py] ∅ ∅ books_locs books_fs).
  - compute_done.
  - compute_done.
Defined.

Lemma index_replaces_tempindex_witness :
  ∃ st, discover ["out"] [misc_py] ∅ = Some st ∧
    ∀ n fields p, (n, (fields, p)) ∈ all_interfaces st → p = index_path ["out"] →
      n = "tempindex" ∧
      (<[["out"; "tempindex.ts"] :=
           INDEX_HEADER +:+ "export * from './tempindex';" +:+ Py.nl]> (∅ : gmap path string))
        !! p = Some (index_text (index_line ["out"] <$> all_interfaces st)) ∧
      (<[["out"; "tempindex.ts"] :=
           INDEX_HEADER +:+ "export * from './tempindex';" +:+ Py.nl]> (∅ : gmap path string))
        !! p ≠ Some (interface_text (<["tempindex" := ["out"; "tempindex.ts"]]> ∅)
                       (n, (fields, p))).
Proof.
  apply (index_replaces_tempindex ["out"] [misc_py] ∅ ∅
           (<["tempindex" := ["out"; "tempindex.ts"]]> ∅)).
  compute_done.
Defined.

(** ** Names discovered more than once, and the order of files *)

Section Collisions.
Variable out_base : path.

(** X13: when several classes derive one name, the interface is that of
    the class registered last: the last one of that name in the last file
    that has one gives the fields, the path and the known location. *)
Theorem last_discovery_wins files1 file files2 locs0 st found1 n cls found2 :
  discover out_base (files1 ++ file :: files2) locs0 = Some st →
  Py.startswith "__" (sf_name file) = false →
  find_serializer_classes file (module_path_of file) = Some (found1 ++ (n, cls) :: found2) →
  n ∉ found2.*1 →
  (∀ f parent fields, f ∈ files2 → ¬ discovers_in f parent n fields) →
  ∃ fields, extract_serializer_fields cls = Some fields ∧
    Dict.get (all_interfaces st) n
      = Some (fields, out_base ++ sf_parent file ++ [n +:+ ".ts"]) ∧
    interface_locations st !! n = Some (out_base ++ sf_parent file ++ [n +:+ ".ts"]).
Proof.
  intros Hd Hdunder Hf Hn2 Hfiles2. unfold discover in Hd.
  apply for_each_app_Some in Hd as (sa & _ & Hd). cbn [for_each] in Hd.
  destruct (scan_file out_base sa file) as [sb|] eqn:Hscan; [|discriminate Hd].
  cbn [mbind option_bind] in Hd.
  unfold scan_file in Hscan. rewrite Hdunder, Hf in Hscan. cbn [mbind option_bind] in Hscan.
  apply for_each_app_Some in Hscan as (s1 & _ & Hscan). cbn [for_each] in Hscan.
  destruct (register_class out_base (sf_parent file) s1 (n, cls)) as [s2|] eqn:Hreg;
    [|discriminate Hscan]. cbn [mbind option_bind] in Hscan.
  apply register_class_Some in Hreg as (fields & He & ->).
  exists fields. split; [done|].
  assert (Dict.get (all_interfaces sb) n
            = Some (fields, out_base ++ sf_parent file ++ [n +:+ ".ts"]) ∧
          interface_locations sb !! n
            = Some (out_base ++ sf_parent file ++ [n +:+ ".ts"])) as Hsb.
  { eapply (for_each_preserve (register_class out_base (sf_parent file))
      (λ s, Dict.get (all_interfaces s) n
              = Some (fields, out_base ++ sf_parent file ++ [n +:+ ".ts"]) ∧
            interface_locations s !! n
              = Some (out_base ++ sf_parent file ++ [n +:+ ".ts"])) found2 _ sb);
      [| |exact Hscan].
    - intros s [m c] s' Hin Hreg [Hg Hl].
      destruct (register_class_other _ _ _ _ _ _ n Hreg) as [Hg' Hl'].
      + intros ->. apply Hn2. apply list_elem_of_fmap. by exists (n, c).
      + by rewrite Hg', Hl'.
    - cbn [all_interfaces interface_locations]. unfold out_path_of.
      by rewrite dict_get_set, decide_True, lookup_insert_eq. }
  apply (for_each_preserve (scan_file out_base)
    (λ s, Dict.get (all_interfaces s) n
            = Some (fields, out_base ++ sf_parent file ++ [n +:+ ".ts"]) ∧
          interface_locations s !! n
            = Some (out_base ++ sf_parent file ++ [n +:+ ".ts"])) files2 sb st);
    [|done|done].
  intros s f s' Hin Hs [Hg Hl].
  destruct (scan_file_other _ _ _ _ n Hs) as [Hg' Hl']; [by eauto|]. by rewrite Hg', Hl'.
Qed.

End Collisions.

Lemma last_discovery_wins_witness :
  ∃ fields, extract_serializer_fields UserSerializer_v2 = Some fields ∧
    Dict.get (all_interfaces
                {| interface_locations := <["User" := ["out"; "v2"; "User.ts"]]> ∅;
                   all_interfaces :=
                     [("User", ([("name", "string"); ("email", "string")],
                                ["out"; "v2"; "User.ts"]))] |}) "User"
      = Some (fields, ["out"] ++ sf_parent users_v2_py ++ ["User" +:+ ".ts"]) ∧
    interface_locations
      {| interface_locations := <["User" := ["out"; "v2"; "User.ts"]]> ∅;
         all_interfaces :=
           [("User", ([("name", "string"); ("email", "string")],
                      ["out"; "v2"; "User.ts"]))] |} !! "User"
      = Some (["out"] ++ sf_parent users_v2_py ++ ["User" +:+ ".ts"]).
Proof.
  apply (last_discovery_wins ["out"] [users_v1_py] users_v2_py [] ∅ _ []
           "User" UserSerializer_v2 []).
  - compute_done.
  - reflexivity.
  - reflexivity.
  - apply not_elem_of_nil.
  - intros f parent fields Hf. by apply elem_of_nil in Hf.
Defined.

Section OrderOfFiles.
Variable out_base : path.

Lemma inv_entry_transfer D st1 st2 item :
  (∀ parent parent' n fields fields',
     D parent n fields → D parent' n fields' → parent = parent' ∧ fields = fields') →
  discovery_inv out_base D st1 → discovery_inv out_base D st2 →
  item ∈ all_interfaces st1 → item ∈ all_interfaces st2.
Proof.
  intros Hfun HI1 HI2. destruct item as [n [fields p]]. intros Hin.
  destruct (entry_discovered _ _ _ _ _ _ HI1 Hin) as (parent & HD & ->).
  pose proof HI2 as (_ & Hsound2 & Hcompl2).
  apply Hcompl2 in HD as Hk. apply dict_elem_of_keys in Hk as [[fields' p'] Hg].
  destruct (Hsound2 _ _ _ Hg) as (parent' & HD' & ->).
  destruct (Hfun _ _ _ _ _ HD HD') as [-> ->]. by apply dict_get_Some_elem_of.
Qed.

Lemma discovers_Permutation files1 files2 parent n fields :
  files1 ≡ₚ files2 → discovers files1 parent n fields ↔ discovers files2 parent n fields.
Proof.
  intros Hp. unfold discovers. split; intros (file & Hin & ?); exists file;
    (split; [|done]); [by rewrite <- Hp|by rewrite Hp].
Qed.

(** X14: when no two discoveries of one name differ, the run leaves the
    same locations and the same files in whatever order the files are
    yielded. *)
Theorem output_independent_of_file_order files1 files2 locs0 fs0 locs fs1 :
  files1 ≡ₚ files2 →
  (∀ parent parent' n fields fields',
     discovers files1 parent n fields → discovers files1 parent' n fields' →
     parent = parent' ∧ fields = fields') →
  main out_base files1 locs0 fs0 = Some (locs, fs1) →
  main out_base files2 locs0 fs0 = Some (locs, fs1).
Proof.
  intros Hperm Hfun (st1 & Hd1 & -> & ->)%main_Some.
  assert (is_Some (discover out_base files2 locs0)) as [st2 Hd2].
  { apply discover_is_Some. intros file Hin. rewrite <- Hperm in Hin.
    revert file Hin. apply (proj1 (discover_is_Some out_base files1 locs0)). by eexists. }
  pose proof (discover_inv _ _ _ _ Hd1) as HI1.
  assert (discovery_inv out_base (discovers files1) st2) as HI2.
  { eapply discovery_inv_iff; [|apply (discover_inv _ _ _ _ Hd2)].
    intros p n f. symmetry. by apply discovers_Permutation. }
  assert (all_interfaces st2 ≡ₚ all_interfaces st1) as Hall.
  { apply NoDup_Permutation.
    - destruct HI2 as (Hnd & _). by apply NoDup_fmap_1 in Hnd.
    - destruct HI1 as (Hnd & _). by apply NoDup_fmap_1 in Hnd.
    - intros item. split; by apply (inv_entry_transfer (discovers files1)). }
  assert (interface_locations st2 = interface_locations st1) as Hlocs.
  { rewrite (discover_locs _ _ _ _ Hd1), (discover_locs _ _ _ _ Hd2). f_equal.
    unfold loc_map. apply list_to_map_proper; [|by rewrite Hall].
    rewrite <- list_fmap_compose. by destruct HI2 as (Hnd & _). }
  apply main_Some. exists st2. split_and!; [done|done|].
  unfold run_writes. rewrite !apply_writes_app, Hlocs.
  assert (index_text (index_line out_base <$> all_interfaces st2)
          = index_text (index_line out_base <$> all_interfaces st1)) as ->.
  { unfold index_text. by rewrite Hall. }
  f_equal. rewrite !apply_writes_union. f_equal.
  apply list_to_map_proper.
  - rewrite reverse_Permutation, <- list_fmap_compose.
    apply (entry_paths_NoDup out_base _ st1 HI1).
  - by rewrite !reverse_Permutation, Hall.
Qed.

End OrderOfFiles.

Lemma output_independent_of_file_order_witness :
  main ["out"] [helpers_py; books_py] ∅ ∅ = Some (books_locs, books_fs).
Proof.
  apply (output_independent_of_file_order ["out"] [books_py; helpers_py]
           [helpers_py; books_py] ∅ ∅ books_locs books_fs).
  - apply Permutation_swap.
  - intros parent parent' n fields fields'
      (f1 & Hf1 & _ & -> & m1 & a1 & c1 & Hm1 & Hin1 & _ & -> & He1)
      (f2 & Hf2 & _ & -> & m2 & a2 & c2 & Hm2 & Hin2 & _ & Hn & He2).
    apply elem_of_cons in Hf1 as [->|[->|Hf1]%elem_of_cons];
      [|injection Hm1 as <-; apply list_elem_of_singleton in Hin1; discriminate Hin1
       |by apply elem_of_nil in Hf1].
    apply elem_of_cons in Hf2 as [->|[->|Hf2]%elem_of_cons];
      [|injection Hm2 as <-; apply list_elem_of_singleton in Hin2; discriminate Hin2
       |by apply elem_of_nil in Hf2].
    split; [done|]. injection Hm1 as <-. injection Hm2 as <-.
    repeat (apply elem_of_cons in Hin1 as [Heq1|Hin1];
            [try discriminate Heq1; injection Heq1 as -> ->|]);
      try (by apply elem_of_nil in Hin1);
      repeat (apply elem_of_cons in Hin2 as [Heq2|Hin2];
              [try discriminate Heq2; injection Heq2 as -> ->|]);
      try (by apply elem_of_nil in Hin2);
      try discriminate Hn; congruence.
  - compute_done.
Defined.

(** ** References to what is not discovered *)

Example posts_run : main ["out"] [posts_py] ∅ ∅ = Some (posts_locs, posts_fs).
Proof. compute_done. Qed.

Section Dangling.
Variable out_base : path.


End Dangling.


